(** * MeetingManager: date normalisation, document import and the meeting store

    A shallow embedding of the logic of [meeting_manager_app.py]:
    the two date functions ([normalize_datetime], [normalize_date_prefix]),
    the document splitter ([split_docx_by_page]), the record extractor
    (the body of [parse_docx_to_records]) and the [DBManager] operations
    ([insert_meeting], [delete_meeting], [segmented_search_exact_six]).

    Python [str] values are sequences of Unicode code points, and every
    string operation of the program ([strip], [startswith], [split], the
    regular expressions with \s and \d) works on code points; strings are
    therefore modelled as lists of code points.  The storage engine is
    modelled by what the statements of the program mean on a table held as
    a list of rows; its resource limits are left out. *)

From Stdlib Require Import Ascii String.
From Stdlib Require Import List NArith Bool Lia Permutation Sorted.
Import ListNotations.

Open Scope N_scope.

(* ================================================================== *)
(** ** Python strings *)

Definition char := N.
Definition pystr := list char.

(** Literals are written as UTF-8 text and decoded to code points. *)
Fixpoint utf8_go (need : nat) (acc : N) (s : string) : pystr :=
  match s with
  | EmptyString => []
  | String a s' =>
      let b := N_of_ascii a in
      match need with
      | O => if b <? 128 then b :: utf8_go 0 0 s'
             else if b <? 224 then utf8_go 1 (b - 192) s'
             else if b <? 240 then utf8_go 2 (b - 224) s'
             else utf8_go 3 (b - 240) s'
      | S O => (acc * 64 + (b - 128)) :: utf8_go 0 0 s'
      | S n => utf8_go n (acc * 64 + (b - 128)) s'
      end
  end.

Definition U (s : string) : pystr := utf8_go 0 0 s.

Definition str_eqb (a b : pystr) : bool :=
  if list_eq_dec N.eq_dec a b then true else false.

(** [bool(s)] for a string: true when it is not empty. *)
Definition truthy (s : pystr) : bool :=
  match s with [] => false | _ :: _ => true end.

(** [str.isspace] on one character, which is also the class \s of [re]
    for [str] patterns: CPython's [Py_UNICODE_ISSPACE]. *)
Definition isspace (c : char) : bool :=
  ((0x09 <=? c) && (c <=? 0x0D)) || ((0x1C <=? c) && (c <=? 0x20))
  || (c =? 0x85) || (c =? 0xA0) || (c =? 0x1680)
  || ((0x2000 <=? c) && (c <=? 0x200A))
  || (c =? 0x2028) || (c =? 0x2029) || (c =? 0x202F) || (c =? 0x205F)
  || (c =? 0x3000).

Fixpoint lstrip (s : pystr) : pystr :=
  match s with
  | c :: s' => if isspace c then lstrip s' else s
  | [] => []
  end.

Definition rstrip (s : pystr) : pystr := rev (lstrip (rev s)).

(** [s.strip()] *)
Definition strip (s : pystr) : pystr := rstrip (lstrip s).

(** [s.startswith(p)] *)
Fixpoint startswith (s p : pystr) {struct p} : bool :=
  match p, s with
  | [], _ => true
  | _ :: _, [] => false
  | a :: p', b :: s' => (a =? b) && startswith s' p'
  end.

(** [sep.join(parts)] *)
Fixpoint join (sep : pystr) (parts : list pystr) : pystr :=
  match parts with
  | [] => []
  | [p] => p
  | p :: ps => p ++ sep ++ join sep ps
  end.

(** [ln.split(sep, 1)] for a one-character separator: [None] when the
    separator does not occur (the result list has one element), otherwise
    the text before and the text after its first occurrence. *)
Fixpoint split1 (sep : char) (s : pystr) : option (pystr * pystr) :=
  match s with
  | [] => None
  | c :: s' =>
      if c =? sep then Some ([], s')
      else match split1 sep s' with
           | Some (a, b) => Some (c :: a, b)
           | None => None
           end
  end.

(** The first code point of every run of ten decimal digits (general
    category Nd) of the Unicode character database, version 14.0: the
    class \d of [re] for [str] patterns, and the digits [int] accepts. *)
Definition decimal_runs : list N :=
  [ 0x30; 0x660; 0x6F0; 0x7C0; 0x966; 0x9E6; 0xA66; 0xAE6; 0xB66; 0xBE6;
    0xC66; 0xCE6; 0xD66; 0xDE6; 0xE50; 0xED0; 0xF20; 0x1040; 0x1090;
    0x17E0; 0x1810; 0x1946; 0x19D0; 0x1A80; 0x1A90; 0x1B50; 0x1BB0;
    0x1C40; 0x1C50; 0xA620; 0xA8D0; 0xA900; 0xA9D0; 0xA9F0; 0xAA50;
    0xABF0; 0xFF10; 0x104A0; 0x10D30; 0x11066; 0x110F0; 0x11136; 0x111D0;
    0x112F0; 0x11450; 0x114D0; 0x11650; 0x116C0; 0x11730; 0x118E0;
    0x11950; 0x11C50; 0x11D50; 0x11DA0; 0x16A60; 0x16AC0; 0x16B50;
    0x1D7CE; 0x1D7D8; 0x1D7E2; 0x1D7EC; 0x1D7F6; 0x1E140; 0x1E2F0;
    0x1E950; 0x1FBF0 ].

Definition decimal_value (c : char) : option N :=
  match find (fun z => (z <=? c) && (c <? z + 10)) decimal_runs with
  | Some z => Some (c - z)
  | None => None
  end.

(** [str.isdecimal] on one character. *)
Definition isdecimal (c : char) : bool :=
  match decimal_value c with Some _ => true | None => false end.

(** [int(s)] on a string of decimal digits. *)
Definition int_of_digits (s : pystr) : N :=
  fold_left (fun acc c =>
               acc * 10 + match decimal_value c with Some v => v | None => 0 end)
            s 0.

(** [str(n)] / [f"{n}"]: the decimal rendering, most significant digit
    first, of a non-negative integer. *)
Fixpoint digits_from (fuel : nat) (n : N) (acc : pystr) : pystr :=
  match fuel with
  | O => acc
  | S f =>
      let acc' := (0x30 + n mod 10) :: acc in
      if n / 10 =? 0 then acc' else digits_from f (n / 10) acc'
  end.

Definition str_of_int (n : N) : pystr :=
  digits_from (S (N.to_nat (N.log2 n))) n [].

(** [f"{n:0wd}"]: zero padding on the left up to width [w]. *)
Definition zfill (w : nat) (s : pystr) : pystr :=
  repeat 0x30 (w - length s) ++ s.

(* ------------------------------------------------------------------ *)
(** *** Text constants of the program *)

Definition CH_YEAR : char := 0x5E74.   (* 年 *)
Definition CH_MONTH : char := 0x6708.  (* 月 *)
Definition CH_DAY : char := 0x65E5.    (* 日 *)
Definition CH_DASH : char := 0x2D.     (* - *)
Definition CH_COLON : char := 0xFF1A.  (* full-width colon *)
Definition CH_SPACE : char := 0x20.
Definition CH_NL : char := 0x0A.
Definition CH_PERCENT : char := 0x25.
Definition CH_UNDERSCORE : char := 0x5F.

Definition LBL_TIME : pystr := Eval vm_compute in U "会议时间".
Definition LBL_PLACE : pystr := Eval vm_compute in U "会议地点".
Definition LBL_PEOPLE : pystr := Eval vm_compute in U "参会人员".
Definition LBL_TOPIC : pystr := Eval vm_compute in U "会议议题".
Definition LBL_CONTENT : pystr := Eval vm_compute in U "会议内容".

Definition MSG_EMPTY : pystr := Eval vm_compute in U "文档为空".
Definition MSG_MISSING : pystr :=
  Eval vm_compute in U "缺少必要字段（会议时间/地点/人员）".
Definition MSG_BAD_DATE : pystr := Eval vm_compute in U "会议时间格式不正确".
Definition MSG_UNREADABLE : pystr := Eval vm_compute in U "无法解析Word：".
Definition MSG_DUPLICATE : pystr :=
  Eval vm_compute in U "重复记录（同“会议名称 + 会议时间”）已跳过。".
Definition MSG_INSERT_FAILED : pystr := Eval vm_compute in U "插入失败：".
Definition MSG_DELETE_FAILED : pystr := Eval vm_compute in U "删除失败：".
Definition MSG_DUP_MARK : pystr := Eval vm_compute in U "重复记录".
Definition MSG_UNKNOWN : pystr := Eval vm_compute in U "未知错误".

(* ================================================================== *)
(** ** Date tools *)

Notation "'let?' x ':=' e 'in' k" :=
  (match e with Some x => k | None => None end)
  (at level 10, x pattern, e at level 100, k at level 200, only parsing).

(** \d{n}: exactly [n] decimal digits. *)
Fixpoint digits_exact (n : nat) (s : pystr) : option (pystr * pystr) :=
  match n with
  | O => Some ([], s)
  | S n' =>
      match s with
      | c :: s' =>
          if isdecimal c
          then let? (ds, r) := digits_exact n' s' in Some (c :: ds, r)
          else None
      | [] => None
      end
  end.

(** \d{1,2}: one or two decimal digits, the longer alternative first. *)
Definition digits_1_2 (s : pystr) : option (pystr * pystr) :=
  match s with
  | c1 :: s1 =>
      if isdecimal c1 then
        match s1 with
        | c2 :: s2 => if isdecimal c2 then Some ([c1; c2], s2) else Some ([c1], s1)
        | [] => Some ([c1], [])
        end
      else None
  | [] => None
  end.

(** One literal character. *)
Definition literal (c : char) (s : pystr) : option pystr :=
  match s with
  | c' :: s' => if c' =? c then Some s' else None
  | [] => None
  end.

(** The four compiled patterns share one shape,
      ^\s*(?P<y>\d{4})<a>(?P<m>\d{1,2})<b>(?P<d>\d{1,2})<c>   and, for the
    FULL ones, a final \s*$ ; they differ in the separators <a>, <b>, <c>
    and in the final anchor. *)
Record date_re := {
  sep_y : char;
  sep_m : char;
  sep_d : option char;
  to_end : bool
}.

Definition DATE_RE_CN_FULL : date_re :=
  {| sep_y := CH_YEAR; sep_m := CH_MONTH; sep_d := Some CH_DAY; to_end := true |}.
Definition DATE_RE_STD_FULL : date_re :=
  {| sep_y := CH_DASH; sep_m := CH_DASH; sep_d := None; to_end := true |}.
Definition DATE_RE_CN_PREFIX : date_re :=
  {| sep_y := CH_YEAR; sep_m := CH_MONTH; sep_d := Some CH_DAY; to_end := false |}.
Definition DATE_RE_STD_PREFIX : date_re :=
  {| sep_y := CH_DASH; sep_m := CH_DASH; sep_d := None; to_end := false |}.

(** A match object: the named groups and the text from [m.end()] on. *)
Record date_match := {
  grp_y : pystr;
  grp_m : pystr;
  grp_d : pystr;
  after : pystr
}.

(** [re.match(s)].  The engine tries the longest repetition first and
    backs off on failure; here backing off never succeeds, because what
    follows each repetition cannot start with a character of the repeated
    class (a digit after \s*, a separator or white space or the end after
    \d{1,2}), so the first attempt decides.  The final \s*$ succeeds
    exactly when all the remaining text is white space (the newline that $
    tolerates at the end is white space too), and the match then ends at
    the end of the text. *)
Definition re_match (re : date_re) (s : pystr) : option date_match :=
  let? (y, r1) := digits_exact 4 (lstrip s) in
  let? r2 := literal (sep_y re) r1 in
  let? (m, r3) := digits_1_2 r2 in
  let? r4 := literal (sep_m re) r3 in
  let? (d, r5) := digits_1_2 r4 in
  let? r6 := match sep_d re with Some c => literal c r5 | None => Some r5 end in
  if to_end re then
    if forallb isspace r6
    then Some {| grp_y := y; grp_m := m; grp_d := d; after := [] |}
    else None
  else Some {| grp_y := y; grp_m := m; grp_d := d; after := r6 |}.

(** [f"{y}年{mm}月{d}日"] *)
Definition date_part (y mm d : N) : pystr :=
  str_of_int y ++ [CH_YEAR] ++ str_of_int mm ++ [CH_MONTH]
  ++ str_of_int d ++ [CH_DAY].

(** The body shared by the two branches of [normalize_datetime].  [int]
    of a group matched by \d cannot raise, so the [except ValueError]
    branches are dead. *)
Definition render_match (m : date_match) : pystr :=
  let y := int_of_digits (grp_y m) in
  let mm := int_of_digits (grp_m m) in
  let d := int_of_digits (grp_d m) in
  let suffix := strip (after m) in
  if truthy suffix then date_part y mm d ++ [CH_SPACE] ++ suffix
  else date_part y mm d.

Definition normalize_datetime (date_str : pystr) : option pystr :=
  let s := strip date_str in
  match re_match DATE_RE_CN_PREFIX s with
  | Some m => Some (render_match m)
  | None =>
      match re_match DATE_RE_STD_PREFIX s with
      | Some m => Some (render_match m)
      | None => None
      end
  end.

(** [datetime(y, m, d)]: the proleptic Gregorian calendar, years 1 to
    9999; [None] stands for [ValueError]. *)
Definition is_leap (y : N) : bool :=
  (y mod 4 =? 0) && (negb (y mod 100 =? 0) || (y mod 400 =? 0)).

Definition days_in_month (y m : N) : N :=
  match m with
  | 1 | 3 | 5 | 7 | 8 | 10 | 12 => 31
  | 4 | 6 | 9 | 11 => 30
  | 2 => if is_leap y then 29 else 28
  | _ => 0
  end.

Definition datetime (y m d : N) : option (N * N * N) :=
  if (1 <=? y) && (y <=? 9999) && (1 <=? m) && (m <=? 12)
     && (1 <=? d) && (d <=? days_in_month y m)
  then Some (y, m, d) else None.

(** [.strftime("%Y-%m-%d")]: the year with four digits, month and day
    with two.  (Some C libraries do not pad a year below 1000; the
    results below that name a year use 2024.) *)
Definition strftime_ymd (dt : N * N * N) : pystr :=
  let '(y, m, d) := dt in
  zfill 4 (str_of_int y) ++ [CH_DASH] ++ zfill 2 (str_of_int m)
  ++ [CH_DASH] ++ zfill 2 (str_of_int d).

Definition strict_match (m : date_match) : option pystr :=
  let? dt := datetime (int_of_digits (grp_y m)) (int_of_digits (grp_m m))
                      (int_of_digits (grp_d m)) in
  Some (strftime_ymd dt).

Definition normalize_date_prefix (date_in : pystr) : option pystr :=
  let s := strip date_in in
  match re_match DATE_RE_CN_FULL s with
  | Some m => strict_match m
  | None =>
      match re_match DATE_RE_STD_FULL s with
      | Some m => strict_match m
      | None => None
      end
  end.

(* ================================================================== *)
(** ** Reading a Word document *)

(** What the program looks at in a document: for each paragraph its text
    and, for each of its runs, the [w:type] attribute of every [w:br]
    element below the run ([None] when the attribute is absent). *)
Definition br := option pystr.
Definition run := list br.

Record paragraph := {
  para_text : pystr;
  para_runs : list run
}.

Definition document := list paragraph.

Definition is_page_br (b : br) : bool :=
  match b with
  | Some t => str_eqb t (U "page")
  | None => false
  end.

Definition has_page_break (para : paragraph) : bool :=
  existsb (fun r => existsb is_page_br r) (para_runs para).

(** The loop of [split_docx_by_page], with its two accumulators, and the
    flush after the last paragraph. *)
Fixpoint split_loop (paras : list paragraph)
         (meetings : list (list pystr)) (current_lines : list pystr)
  : list (list pystr) :=
  match paras with
  | [] =>
      match current_lines with
      | [] => meetings
      | _ :: _ => meetings ++ [current_lines]
      end
  | para :: paras' =>
      let text := strip (para_text para) in
      let current_lines :=
        if truthy text then current_lines ++ [text] else current_lines in
      if has_page_break para then
        match current_lines with
        | [] => split_loop paras' meetings current_lines
        | _ :: _ => split_loop paras' (meetings ++ [current_lines]) []
        end
      else split_loop paras' meetings current_lines
  end.

Definition split_docx_by_page (doc : document) : list (list pystr) :=
  split_loop doc [] [].

(** A record as the importer and the entry dialog build it. *)
Record meeting := {
  title : pystr;
  date : pystr;
  location : pystr;
  attendees : pystr;
  topic : pystr;
  content : pystr;
  raw_text : pystr
}.

(** [(record, error, raw_text)] *)
Definition parsed := (option meeting * option pystr * option pystr)%type.

Definition safe_extract (ln : pystr) : pystr :=
  match split1 CH_COLON ln with
  | Some (_, v) => strip v
  | None => []
  end.

(** The local variables of the scan over [lines[1:]]. *)
Record scan_state := {
  date_str : pystr;
  v_location : pystr;
  v_attendees : pystr;
  v_topic : pystr;
  content_lines : list pystr;
  content_started : bool
}.

Definition scan_init : scan_state :=
  {| date_str := []; v_location := []; v_attendees := []; v_topic := [];
     content_lines := []; content_started := false |}.

Definition scan_line (st : scan_state) (ln : pystr) : scan_state :=
  if startswith ln LBL_TIME then
    {| date_str := safe_extract ln; v_location := v_location st;
       v_attendees := v_attendees st; v_topic := v_topic st;
       content_lines := content_lines st; content_started := content_started st |}
  else if startswith ln LBL_PLACE then
    {| date_str := date_str st; v_location := safe_extract ln;
       v_attendees := v_attendees st; v_topic := v_topic st;
       content_lines := content_lines st; content_started := content_started st |}
  else if startswith ln LBL_PEOPLE then
    {| date_str := date_str st; v_location := v_location st;
       v_attendees := safe_extract ln; v_topic := v_topic st;
       content_lines := content_lines st; content_started := content_started st |}
  else if startswith ln LBL_TOPIC then
    {| date_str := date_str st; v_location := v_location st;
       v_attendees := v_attendees st; v_topic := safe_extract ln;
       content_lines := content_lines st; content_started := content_started st |}
  else if startswith ln LBL_CONTENT then
    {| date_str := date_str st; v_location := v_location st;
       v_attendees := v_attendees st; v_topic := v_topic st;
       content_lines := content_lines st; content_started := true |}
  else if content_started st then
    {| date_str := date_str st; v_location := v_location st;
       v_attendees := v_attendees st; v_topic := v_topic st;
       content_lines := content_lines st ++ [ln];
       content_started := content_started st |}
  else st.

Definition scan (lines : list pystr) : scan_state :=
  fold_left scan_line lines scan_init.

(** The body of the loop of [parse_docx_to_records] for one line-group. *)
Definition extract_record (lines : list pystr) : parsed :=
  let raw := join [CH_NL] lines in
  match lines with
  | [] => (None, Some MSG_EMPTY, Some raw)
  | first :: rest =>
      let st := scan rest in
      if negb (truthy (date_str st)) || negb (truthy (v_location st))
         || negb (truthy (v_attendees st))
      then (None, Some MSG_MISSING, Some raw)
      else
        match normalize_datetime (date_str st) with
        | None => (None, Some MSG_BAD_DATE, Some raw)
        | Some date_norm =>
            if truthy date_norm then
              (Some {| title := first; date := date_norm;
                       location := v_location st;
                       attendees := v_attendees st;
                       topic := v_topic st;
                       content := strip (join [CH_NL] (content_lines st));
                       raw_text := raw |},
               None, None)
            else (None, Some MSG_BAD_DATE, Some raw)
        end
  end.

(** The file named by the path: a document the library could open, or
    the text of the exception it raised. *)
Inductive docx_file :=
| Readable (doc : document)
| Unreadable (e : pystr).

Definition parse_docx_to_records (f : docx_file) : list parsed :=
  match f with
  | Unreadable e => [(None, Some (MSG_UNREADABLE ++ e), None)]
  | Readable doc => map extract_record (split_docx_by_page doc)
  end.

(* ================================================================== *)
(** ** The meeting store *)

(** One row of table [meetings]. *)
Record row := {
  id : N;
  r_title : pystr;
  r_date : pystr;
  r_location : pystr;
  r_attendees : pystr;
  r_topic : pystr;
  r_content : pystr;
  r_raw_text : pystr
}.

(** The table, in rowid order, and the AUTOINCREMENT counter kept by the
    engine (the largest id ever given out). *)
Record store := {
  rows : list row;
  last_id : N
}.

Definition empty_store : store := {| rows := []; last_id := 0 |}.

(** How the storage engine behaves during one statement: it runs it, or
    it raises an exception that is not an [IntegrityError] (a full disk, a
    locked file), whose text is given.  The statement then has no effect
    on the table. *)
Inductive engine :=
| Runs
| Raises (e : pystr).

(** [UNIQUE(title, date)]: is there a row with this pair? *)
Definition has_key (t d : pystr) (db : store) : bool :=
  existsb (fun r => str_eqb (r_title r) t && str_eqb (r_date r) d) (rows db).

Definition next_id (db : store) : N :=
  N.succ (fold_left N.max (map id (rows db)) (last_id db)).

Definition row_of (i : N) (rec : meeting) : row :=
  {| id := i; r_title := title rec; r_date := date rec;
     r_location := location rec; r_attendees := attendees rec;
     r_topic := topic rec; r_content := content rec;
     r_raw_text := raw_text rec |}.

(** [insert_meeting]: the new store and the pair [(ok, message)].  The
    violated constraint can only be the uniqueness one: the columns
    declared NOT NULL always receive strings. *)
Definition insert_meeting (eng : engine) (db : store) (rec : meeting)
  : store * (bool * option pystr) :=
  match eng with
  | Raises e => (db, (false, Some (MSG_INSERT_FAILED ++ e)))
  | Runs =>
      if has_key (title rec) (date rec) db
      then (db, (false, Some MSG_DUPLICATE))
      else
        let i := next_id db in
        ({| rows := rows db ++ [row_of i rec]; last_id := i |}, (true, None))
  end.

(** [delete_meeting] *)
Definition delete_meeting (eng : engine) (db : store) (rec_id : N)
  : store * (bool * option pystr) :=
  match eng with
  | Raises e => (db, (false, Some (MSG_DELETE_FAILED ++ e)))
  | Runs =>
      ({| rows := filter (fun r => negb (id r =? rec_id)) (rows db);
          last_id := last_id db |}, (true, None))
  end.

(** [get_id_by_title_date] *)
Definition get_id_by_title_date (db : store) (t d : pystr) : option N :=
  match find (fun r => str_eqb (r_title r) t && str_eqb (r_date r) d) (rows db) with
  | Some r => Some (id r)
  | None => None
  end.

(* ------------------------------------------------------------------ *)
(** *** Search *)

Inductive field := Title | Date | Location | Attendees | Topic | Content.

Definition column (f : field) (r : row) : pystr :=
  match f with
  | Title => r_title r
  | Date => r_date r
  | Location => r_location r
  | Attendees => r_attendees r
  | Topic => r_topic r
  | Content => r_content r
  end.

(** The engine's LIKE: [%] stands for any text, [_] for any one
    character, and the letters A to Z and a to z are compared without
    regard to case. *)
Definition fold_case (c : char) : char :=
  if (0x41 <=? c) && (c <=? 0x5A) then c + 0x20 else c.

Fixpoint like (pat s : pystr) : bool :=
  match pat with
  | [] => match s with [] => true | _ :: _ => false end
  | c :: pat' =>
      if c =? CH_PERCENT then
        (fix any (t : pystr) : bool :=
           like pat' t || match t with [] => false | _ :: t' => any t' end) s
      else
        match s with
        | [] => false
        | x :: s' =>
            if c =? CH_UNDERSCORE then like pat' s'
            else (fold_case c =? fold_case x) && like pat' s'
        end
  end.

(** One entry of [clauses] with its entry of [params]: [field LIKE ?]. *)
Definition clause := (field * pystr)%type.

Definition like_clause (f : field) (kw : pystr) : list clause :=
  if truthy (strip kw) then [(f, [CH_PERCENT] ++ strip kw ++ [CH_PERCENT])]
  else [].

Definition date_clause (date_kw : pystr) : list clause :=
  if truthy (strip date_kw) then
    match normalize_date_prefix (strip date_kw) with
    | Some prefix =>
        if truthy prefix then [(Date, prefix ++ [CH_PERCENT])] else []
    | None => []
    end
  else [].

Definition build_clauses
           (title_kw date_kw location_kw attendees_kw topic_kw content_kw : pystr)
  : list clause :=
  like_clause Title title_kw ++ like_clause Location location_kw
  ++ like_clause Attendees attendees_kw ++ like_clause Topic topic_kw
  ++ like_clause Content content_kw ++ date_clause date_kw.

(** The WHERE part: the conjunction of the clauses, [1=1] when there is
    none. *)
Definition where_sql (cs : list clause) (r : row) : bool :=
  forallb (fun c => like (snd c) (column (fst c) r)) cs.

(** Comparison of TEXT values: code point by code point, a proper prefix
    first (the engine compares the UTF-8 bytes, which orders strings the
    same way). *)
Fixpoint str_compare (a b : pystr) : comparison :=
  match a, b with
  | [], [] => Eq
  | [], _ :: _ => Lt
  | _ :: _, [] => Gt
  | x :: a', y :: b' =>
      match x ?= y with
      | Eq => str_compare a' b'
      | c => c
      end
  end.

(** [ORDER BY date DESC, id DESC]: does [r1] come no later than [r2]? *)
Definition comes_first (r1 r2 : row) : bool :=
  match str_compare (r_date r1) (r_date r2) with
  | Gt => true
  | Lt => false
  | Eq => id r2 <=? id r1
  end.

Fixpoint place (r : row) (sorted : list row) : list row :=
  match sorted with
  | [] => [r]
  | x :: rest => if comes_first r x then r :: sorted else x :: place r rest
  end.

Definition order_by_date_id_desc (rs : list row) : list row :=
  fold_right place [] rs.

Definition segmented_search_exact_six (db : store)
           (title_kw date_kw location_kw attendees_kw topic_kw content_kw : pystr)
  : list row :=
  let clauses :=
    build_clauses title_kw date_kw location_kw attendees_kw topic_kw content_kw in
  order_by_date_id_desc (filter (where_sql clauses) (rows db)).

(* ------------------------------------------------------------------ *)
(** *** Import into the store *)

(** [needle in s] *)
Fixpoint contains (s needle : pystr) : bool :=
  startswith s needle
  || match s with
     | [] => false
     | _ :: s' => contains s' needle
     end.

(** The tallies of [on_import_clicked]. *)
Record tally := {
  ok_count : nat;
  dup_count : nat;
  errors : list (pystr * pystr)   (* reason, raw text *)
}.

Definition is_error (err : option pystr) : bool :=
  match err with Some e => truthy e | None => false end.

Definition or_empty (o : option pystr) : pystr :=
  match o with Some x => if truthy x then x else [] | None => [] end.

(** One turn of the loop over the parsed records.  A tuple without an
    error always carries a record. *)
Definition import_one (acc : store * tally) (p : parsed) : store * tally :=
  let '(db, t) := acc in
  let '(rec, err, raw) := p in
  if is_error err then
    (db, {| ok_count := ok_count t; dup_count := dup_count t;
            errors := errors t ++ [(or_empty err, or_empty raw)] |})
  else
    match rec with
    | None => acc
    | Some m =>
        let '(db', (ok, msg)) := insert_meeting Runs db m in
        if ok then
          (db', {| ok_count := S (ok_count t); dup_count := dup_count t;
                   errors := errors t |})
        else if truthy (or_empty msg) && contains (or_empty msg) MSG_DUP_MARK then
          (db', {| ok_count := ok_count t; dup_count := S (dup_count t);
                   errors := errors t |})
        else
          (db', {| ok_count := ok_count t; dup_count := dup_count t;
                   errors := errors t
                             ++ [(if truthy (or_empty msg) then or_empty msg
                                  else MSG_UNKNOWN, raw_text m)] |})
    end.

Definition import_docx (db : store) (f : docx_file) : store * tally :=
  fold_left import_one (parse_docx_to_records f)
            (db, {| ok_count := 0; dup_count := 0; errors := [] |}).

(* ================================================================== *)
(** ** A description of the accepted date texts

    Independent of the matcher: a text [s] is a date in the shape of
    pattern [re] with groups [y], [m], [d] followed by [rest].  The last
    field says that the day group is the longest possible one when no
    separator closes it. *)

Definition all_digits (s : pystr) : Prop := Forall (fun c => isdecimal c = true) s.

Definition one_or_two (s : pystr) : Prop :=
  length s = 1%nat \/ length s = 2%nat.

Definition opt_char (o : option char) : pystr :=
  match o with Some c => [c] | None => [] end.

Definition no_digit_ahead (s : pystr) : Prop :=
  match s with c :: _ => isdecimal c = false | [] => True end.

Record date_form (re : date_re) (s y m d rest : pystr) : Prop := {
  form_text :
    s = y ++ sep_y re :: m ++ sep_m re :: d ++ opt_char (sep_d re) ++ rest;
  form_y : length y = 4%nat /\ all_digits y;
  form_m : one_or_two m /\ all_digits m;
  form_d : one_or_two d /\ all_digits d;
  form_longest : sep_d re = None -> length d = 1%nat -> no_digit_ahead rest
}.

(** [s] begins with a date in one of the two accepted forms. *)
Definition date_prefix (s y m d rest : pystr) : Prop :=
  date_form DATE_RE_CN_PREFIX s y m d rest
  \/ date_form DATE_RE_STD_PREFIX s y m d rest.

(** The separator after a \d{1,2} group is not itself a digit. *)
Definition sep_ok (re : date_re) : Prop :=
  isdecimal (sep_m re) = false
  /\ match sep_d re with Some c => isdecimal c = false | None => True end.

(** The text after the date as [normalize_datetime] appends it. *)
Definition suffix_part (rest : pystr) : pystr :=
  if truthy (strip rest) then CH_SPACE :: strip rest else [].

(** The FULL patterns are the PREFIX ones followed by \s*$ . *)
Definition prefix_of (re : date_re) : date_re :=
  {| sep_y := sep_y re; sep_m := sep_m re; sep_d := sep_d re; to_end := false |}.

(** The stripped texts of the paragraphs that are not blank, in order. *)
Definition nonblank_texts (doc : document) : list pystr :=
  filter truthy (map (fun para => strip (para_text para)) doc).

(** A line that starts with one of the five labels. *)
Definition is_label (ln : pystr) : bool :=
  startswith ln LBL_TIME || startswith ln LBL_PLACE
  || startswith ln LBL_PEOPLE || startswith ln LBL_TOPIC
  || startswith ln LBL_CONTENT.

(** A line-group as the splitter should produce it: not empty, and made
    of lines that are not empty. *)
Definition group_ok (g : list pystr) : Prop :=
  g <> [] /\ Forall (fun ln => ln <> []) g.

Definition err_of (p : parsed) : option pystr := snd (fst p).

(** The calendar day a stored date text names: year, month and day of
    its leading "<y>年<m>月<d>日". *)
Definition meeting_day (d : pystr) : option (N * N * N) :=
  match re_match DATE_RE_CN_PREFIX d with
  | Some mt => Some (int_of_digits (grp_y mt), int_of_digits (grp_m mt),
                     int_of_digits (grp_d mt))
  | None => None
  end.

(** Is day [a] strictly before day [b]? *)
Definition day_before (a b : N * N * N) : bool :=
  let '(y1, m1, d1) := a in
  let '(y2, m2, d2) := b in
  (y1 <? y2) || ((y1 =? y2) && ((m1 <? m2) || ((m1 =? m2) && (d1 <? d2)))).

(** "Most recent meeting date first": no row is followed, anywhere
    later in the list, by a row of a strictly later day. *)
Fixpoint recent_first (rs : list row) : bool :=
  match rs with
  | [] => true
  | r :: rest =>
      forallb (fun r' =>
                 match meeting_day (r_date r), meeting_day (r_date r') with
                 | Some a, Some b => negb (day_before a b)
                 | _, _ => true
                 end) rest
      && recent_first rest
  end.

(** An ASCII digit. *)
Definition ascii_digit (c : char) : Prop := 0x30 <= c <= 0x39.

(** [a] may stand before [b] in a result ordered by
    [date DESC, id DESC]. *)
Definition in_order (a b : row) : Prop := comes_first a b = true.

(* ------------------------------------------------------------------ *)
(** *** Sample inputs *)

Definition plain (t : pystr) : paragraph :=
  {| para_text := t; para_runs := [[]] |}.

(** An empty paragraph holding a manual page break (Ctrl+Enter). *)
Definition page_break : paragraph :=
  {| para_text := []; para_runs := [[Some (U "page")]] |}.

(** The minutes of the weekly meeting of 5 March 2024. *)
Definition weekly_lines : list pystr :=
  map U [ "周例会"; "会议时间：2024年3月5日"; "会议地点：三楼会议室";
          "参会人员：张三、李四"; "会议议题：预算"; "会议内容：";
          "讨论预算方案" ]%string.

(** The same minutes with the topic line written after the content
    marker. *)
Definition late_topic_lines : list pystr :=
  map U [ "周例会"; "会议时间：2024年3月5日"; "会议地点：三楼会议室";
          "参会人员：张三、李四"; "会议内容："; "会议议题：预算";
          "讨论预算方案" ]%string.

(** Minutes without a place line and with a date nobody can parse. *)
Definition no_place_lines : list pystr :=
  map U [ "周例会"; "会议时间：明天"; "参会人员：张三、李四" ]%string.

(** A meeting of 1 October 2024. *)
Definition october_lines : list pystr :=
  map U [ "十月例会"; "会议时间：2024-10-01"; "会议地点：三楼会议室";
          "参会人员：张三"; "会议内容："; "总结" ]%string.

Definition weekly_doc : docx_file := Readable (map plain weekly_lines).

(** One file with the October meeting, a page break, and the March
    meeting. *)
Definition two_meetings_doc : docx_file :=
  Readable (map plain october_lines ++ [page_break] ++ map plain weekly_lines).

(** A new document: one paragraph, no text, no page break. *)
Definition blank_doc : document := [plain []].

(** Another record with the title and the date of the weekly meeting. *)
Definition same_key_rec : meeting :=
  {| title := U "周例会"; date := U "2024年3月5日"; location := U "二楼";
     attendees := U "王五"; topic := []; content := []; raw_text := [] |}.

Definition weekly_store : store := fst (import_docx empty_store weekly_doc).

Definition two_meetings_store : store :=
  fst (import_docx empty_store two_meetings_doc).

(* ------------------------------------------------------------------ *)
(** *** Update, and the invariant of the table *)

Definition MSG_DUP_UPDATE : pystr :=
  Eval vm_compute in U "修改后与已有记录重复（同“会议名称+会议时间”）。".
Definition MSG_UPDATE_FAILED : pystr := Eval vm_compute in U "更新失败：".

(** Does row [r] carry the title and the date of [rec]? *)
Definition same_key (rec : meeting) (r : row) : bool :=
  str_eqb (r_title r) (title rec) && str_eqb (r_date r) (date rec).

(** [update_meeting].  [id] is the primary key, so the statement changes
    at most one row; it violates [UNIQUE(title, date)] when there is a row
    to change and another row already has the new title and date.  The
    statement leaves the AUTOINCREMENT counter alone. *)
Definition update_meeting (eng : engine) (db : store) (rec_id : N) (rec : meeting)
  : store * (bool * option pystr) :=
  match eng with
  | Raises e => (db, (false, Some (MSG_UPDATE_FAILED ++ e)))
  | Runs =>
      if existsb (fun r => id r =? rec_id) (rows db)
         && existsb (fun r => negb (id r =? rec_id) && same_key rec r) (rows db)
      then (db, (false, Some MSG_DUP_UPDATE))
      else
        ({| rows := map (fun r => if id r =? rec_id then row_of rec_id rec else r)
                        (rows db);
            last_id := last_id db |}, (true, None))
  end.

Definition row_key (r : row) : pystr * pystr := (r_title r, r_date r).

(** What the schema promises of a table: distinct ids (PRIMARY KEY),
    distinct (title, date) pairs (UNIQUE), and no id above the
    AUTOINCREMENT counter. *)
Definition store_ok (db : store) : Prop :=
  NoDup (map id (rows db))
  /\ NoDup (map row_key (rows db))
  /\ Forall (fun r => id r <= last_id db) (rows db).

(** One step of [int] over a digit text. *)
Definition digit_step (acc : N) (c : char) : N :=
  acc * 10 + match decimal_value c with Some v => v | None => 0 end.

(* ------------------------------------------------------------------ *)
(** *** Reading the search *)




(** Every stored date came out of [normalize_datetime]. *)
Definition dates_normalized (db : store) : Prop :=
  Forall (fun r => exists s, normalize_datetime s = Some (r_date r)) (rows db).

(* ------------------------------------------------------------------ *)
(** *** Reading the extractor *)

(** The four values that label lines set. *)
Inductive part := PDate | PPlace | PPeople | PTopic.

Definition part_label (p : part) : pystr :=
  match p with
  | PDate => LBL_TIME
  | PPlace => LBL_PLACE
  | PPeople => LBL_PEOPLE
  | PTopic => LBL_TOPIC
  end.

Definition part_value (p : part) (st : scan_state) : pystr :=
  match p with
  | PDate => date_str st
  | PPlace => v_location st
  | PPeople => v_attendees st
  | PTopic => v_topic st
  end.

(** The paragraphs with a manual page break. *)
Definition page_breaks (doc : document) : list paragraph :=
  filter has_page_break doc.

(* ================================================================== *)
(** ** Facts about strings *)

Section StringFacts.

Lemma isspace_cases (c : char) :
  isspace c = true ->
  In c [0x09; 0x0A; 0x0B; 0x0C; 0x0D; 0x1C; 0x1D; 0x1E; 0x1F; 0x20; 0x85;
        0xA0; 0x1680; 0x2000; 0x2001; 0x2002; 0x2003; 0x2004; 0x2005;
        0x2006; 0x2007; 0x2008; 0x2009; 0x200A; 0x2028; 0x2029; 0x202F;
        0x205F; 0x3000].
Proof.
  unfold isspace. intros H.
  repeat rewrite orb_true_iff in H.
  repeat rewrite andb_true_iff in H.
  repeat rewrite N.leb_le in H.
  repeat rewrite N.eqb_eq in H.
  simpl. lia.
Qed.

Lemma digit_not_space (c : char) : isdecimal c = true -> isspace c = false.
Proof.
  intros Hd. destruct (isspace c) eqn:Hs; [|reflexivity].
  apply isspace_cases in Hs. simpl in Hs.
  repeat (destruct Hs as [<-|Hs]; [vm_compute in Hd; discriminate|]).
  contradiction.
Qed.

Lemma lstrip_nonspace (c : char) (s : pystr) :
  isspace c = false -> lstrip (c :: s) = c :: s.
Proof. intros H. simpl. now rewrite H. Qed.

Lemma lstrip_head (s : pystr) :
  match lstrip s with c :: _ => isspace c = false | [] => True end.
Proof.
  induction s as [|c s IH]; simpl; [exact I|].
  destruct (isspace c) eqn:E; [exact IH|exact E].
Qed.

Lemma lstrip_snoc (s : pystr) (c : char) :
  isspace c = false -> lstrip (s ++ [c]) = lstrip s ++ [c].
Proof.
  intros H. induction s as [|x s IH]; simpl.
  - now rewrite H.
  - destruct (isspace x); [exact IH|reflexivity].
Qed.

Lemma rstrip_cons_nonspace (c : char) (s : pystr) :
  isspace c = false -> rstrip (c :: s) = c :: rstrip s.
Proof.
  intros H. unfold rstrip. simpl.
  rewrite lstrip_snoc by exact H. now rewrite rev_app_distr.
Qed.

Lemma lstrip_strip (s : pystr) : lstrip (strip s) = strip s.
Proof.
  unfold strip. pose proof (lstrip_head s) as H.
  destruct (lstrip s) as [|c t]; [reflexivity|].
  rewrite rstrip_cons_nonspace by exact H.
  now apply lstrip_nonspace.
Qed.

Lemma lstrip_all_space (s : pystr) :
  forallb isspace s = true -> lstrip s = [].
Proof.
  induction s as [|c s IH]; simpl; [reflexivity|].
  intros H. apply andb_true_iff in H as [Hc Hs]. rewrite Hc. auto.
Qed.

Lemma lstrip_app_space (ws s : pystr) :
  forallb isspace ws = true -> lstrip (ws ++ s) = lstrip s.
Proof.
  induction ws as [|c ws IH]; simpl; [reflexivity|].
  intros H. apply andb_true_iff in H as [Hc Hs]. rewrite Hc. auto.
Qed.


Lemma truthy_true (s : pystr) : truthy s = true <-> s <> [].
Proof. destruct s; simpl; split; congruence. Qed.

Lemma str_eqb_eq (a b : pystr) : str_eqb a b = true <-> a = b.
Proof.
  unfold str_eqb. destruct (list_eq_dec N.eq_dec a b); split; congruence.
Qed.

Lemma str_eqb_refl (a : pystr) : str_eqb a a = true.
Proof. now apply str_eqb_eq. Qed.

Lemma lstrip_idem (s : pystr) : lstrip (lstrip s) = lstrip s.
Proof.
  pose proof (lstrip_head s) as H.
  destruct (lstrip s) as [|c t]; [reflexivity|now apply lstrip_nonspace].
Qed.

Lemma lstrip_app_stop (l t : pystr) (c : char) :
  isspace c = false -> lstrip (l ++ c :: t) = lstrip l ++ c :: t.
Proof.
  intros H. induction l as [|x l IH]; simpl.
  - now rewrite H.
  - destruct (isspace x); [exact IH|reflexivity].
Qed.

Lemma lstrip_snoc_space (l : pystr) (c : char) :
  isspace c = true ->
  lstrip (l ++ [c]) = match lstrip l with [] => [] | _ :: _ => lstrip l ++ [c] end.
Proof.
  intros H. induction l as [|x l IH]; simpl.
  - now rewrite H.
  - destruct (isspace x); [exact IH|reflexivity].
Qed.

Lemma rstrip_idem (s : pystr) : rstrip (rstrip s) = rstrip s.
Proof. unfold rstrip. now rewrite rev_involutive, lstrip_idem. Qed.

Lemma rstrip_cons_space (c : char) (s : pystr) :
  isspace c = true ->
  rstrip (c :: s) = match rstrip s with [] => [] | _ :: _ => c :: rstrip s end.
Proof.
  intros H. unfold rstrip. simpl. rewrite lstrip_snoc_space by exact H.
  destruct (lstrip (rev s)) as [|x t] eqn:E; [reflexivity|].
  assert (Hne : rev (x :: t) <> []).
  { intros E'. apply (f_equal (@rev char)) in E'.
    rewrite rev_involutive in E'. discriminate. }
  rewrite rev_app_distr. change (rev [c]) with [c].
  change ([c] ++ rev (x :: t)) with (c :: rev (x :: t)).
  destruct (rev (x :: t)); [contradiction|reflexivity].
Qed.

Lemma lstrip_rstrip (s : pystr) : lstrip (rstrip s) = rstrip (lstrip s).
Proof.
  induction s as [|c s IH]; [reflexivity|].
  destruct (isspace c) eqn:E.
  - rewrite rstrip_cons_space by exact E. simpl lstrip at 2. rewrite E.
    destruct (rstrip s) as [|x t] eqn:Er.
    + rewrite <- IH. reflexivity.
    + rewrite <- IH. simpl. now rewrite E.
  - rewrite rstrip_cons_nonspace by exact E.
    rewrite !lstrip_nonspace by exact E.
    now rewrite rstrip_cons_nonspace by exact E.
Qed.

(** Stripping the right end first changes nothing. *)
Lemma strip_rstrip (s : pystr) : strip (rstrip s) = strip s.
Proof. unfold strip. now rewrite lstrip_rstrip, rstrip_idem. Qed.

(** A text that ends a part with a character other than white space
    keeps that part when its right end is stripped. *)
Lemma rstrip_after_nonspace (a : pystr) (c : char) (r : pystr) :
  isspace c = false -> rstrip (a ++ c :: r) = a ++ c :: rstrip r.
Proof.
  intros H. unfold rstrip.
  assert (E : rev (a ++ c :: r) = rev r ++ c :: rev a)
    by (rewrite rev_app_distr; simpl; now rewrite <- app_assoc).
  rewrite E, lstrip_app_stop by exact H.
  rewrite rev_app_distr. simpl. rewrite rev_involutive.
  now rewrite <- app_assoc.
Qed.

(** The right strip keeps the first character, or leaves nothing. *)
Lemma rstrip_head (s : pystr) :
  match rstrip s with
  | [] => True
  | c :: _ => exists t, s = c :: t
  end.
Proof.
  induction s as [|x s IH]; [exact I|].
  destruct (isspace x) eqn:E.
  - rewrite rstrip_cons_space by exact E.
    destruct (rstrip s); [exact I|now exists s].
  - rewrite rstrip_cons_nonspace by exact E. now exists s.
Qed.

End StringFacts.

(* ================================================================== *)
(** ** The matcher against the description *)

Section MatcherFacts.

Lemma digits_exact_app (n : nat) (y r : pystr) :
  length y = n -> all_digits y -> digits_exact n (y ++ r) = Some (y, r).
Proof.
  revert n. induction y as [|c y IH]; intros n Hn Hd; simpl in Hn; subst n.
  - reflexivity.
  - inversion Hd as [|? ? Hc Hy]; subst. simpl. rewrite Hc.
    now rewrite (IH (length y) eq_refl Hy).
Qed.

Lemma digits_exact_inv (n : nat) (s y r : pystr) :
  digits_exact n s = Some (y, r) ->
  s = y ++ r /\ length y = n /\ all_digits y.
Proof.
  revert s y r. induction n as [|n IH]; intros s y r H; simpl in H.
  - inversion H; subst. repeat split. constructor.
  - destruct s as [|c s]; [discriminate|].
    destruct (isdecimal c) eqn:Hc; [|discriminate].
    destruct (digits_exact n s) as [[ds r']|] eqn:E; [|discriminate].
    inversion H; subst. destruct (IH _ _ _ E) as (-> & Hl & Hd).
    repeat split; simpl; [congruence|]. now constructor.
Qed.

Lemma digits_1_2_app (m r : pystr) :
  one_or_two m -> all_digits m ->
  (length m = 1%nat -> no_digit_ahead r) ->
  digits_1_2 (m ++ r) = Some (m, r).
Proof.
  intros Hlen Hd Hnext.
  destruct m as [|c1 [|c2 [|c3 m]]]; simpl in Hlen;
    try (destruct Hlen; discriminate).
  - inversion Hd as [|? ? Hc1 _]; subst. simpl. rewrite Hc1.
    specialize (Hnext eq_refl). destruct r as [|x r]; [reflexivity|].
    simpl in Hnext. now rewrite Hnext.
  - inversion Hd as [|? ? Hc1 Hd']; subst.
    inversion Hd' as [|? ? Hc2 _]; subst.
    simpl. now rewrite Hc1, Hc2.
Qed.

Lemma digits_1_2_inv (s m r : pystr) :
  digits_1_2 s = Some (m, r) ->
  s = m ++ r /\ one_or_two m /\ all_digits m
  /\ (length m = 1%nat -> no_digit_ahead r).
Proof.
  unfold digits_1_2. intros H.
  destruct s as [|c1 s1]; [discriminate|].
  destruct (isdecimal c1) eqn:H1; [|discriminate].
  assert (Hone : all_digits [c1]) by (repeat constructor; exact H1).
  destruct s1 as [|c2 s2].
  - inversion H; subst.
    split; [reflexivity|]. split; [now left|]. split; [exact Hone|].
    intros _. exact I.
  - destruct (isdecimal c2) eqn:H2; inversion H; subst.
    + split; [reflexivity|]. split; [now right|].
      split; [repeat constructor; assumption|]. simpl. discriminate.
    + split; [reflexivity|]. split; [now left|]. split; [exact Hone|].
      intros _. exact H2.
Qed.

Lemma literal_inv (c : char) (s r : pystr) :
  literal c s = Some r -> s = c :: r.
Proof.
  destruct s as [|x s]; simpl; [discriminate|].
  destruct (x =? c) eqn:E; [|discriminate].
  apply N.eqb_eq in E. now intros [= ->]; subst.
Qed.

Lemma literal_cons (c : char) (r : pystr) : literal c (c :: r) = Some r.
Proof. simpl. now rewrite N.eqb_refl. Qed.

Lemma all_digits_head_not_space (y r : pystr) :
  length y = 4%nat -> all_digits y -> lstrip (y ++ r) = y ++ r.
Proof.
  intros Hl Hd. destruct y as [|c y]; [discriminate|].
  inversion Hd; subst. simpl app.
  apply lstrip_nonspace. now apply digit_not_space.
Qed.

(** A text of the described shape is matched, with these groups. *)
Lemma re_match_complete (re : date_re) (s y m d rest : pystr) :
  sep_ok re -> to_end re = false ->
  date_form re s y m d rest ->
  re_match re s
  = Some {| grp_y := y; grp_m := m; grp_d := d; after := rest |}.
Proof.
  intros [Hsm Hsd] Hend [Htext [Hy1 Hy2] [Hm1 Hm2] [Hd1 Hd2] Hlong].
  unfold re_match. subst s.
  rewrite all_digits_head_not_space by assumption.
  rewrite digits_exact_app by assumption.
  rewrite literal_cons.
  rewrite digits_1_2_app; try assumption; [|intros _; exact Hsm].
  rewrite literal_cons.
  destruct (sep_d re) as [c|] eqn:Esd; simpl opt_char.
  - rewrite digits_1_2_app; try assumption; [|intros _; exact Hsd].
    simpl app. rewrite literal_cons. now rewrite Hend.
  - simpl app. rewrite digits_1_2_app; try assumption; [|now apply Hlong].
    now rewrite Hend.
Qed.

(** A match has the described shape, from the first character that is
    not white space. *)
Lemma re_match_sound (re : date_re) (s : pystr) (mt : date_match) :
  to_end re = false ->
  re_match re s = Some mt ->
  date_form re (lstrip s) (grp_y mt) (grp_m mt) (grp_d mt) (after mt).
Proof.
  intros Hend H. unfold re_match in H.
  destruct (digits_exact 4 (lstrip s)) as [[y r1]|] eqn:E1; [|discriminate].
  destruct (literal (sep_y re) r1) as [r2|] eqn:E2; [|discriminate].
  destruct (digits_1_2 r2) as [[m r3]|] eqn:E3; [|discriminate].
  destruct (literal (sep_m re) r3) as [r4|] eqn:E4; [|discriminate].
  destruct (digits_1_2 r4) as [[d r5]|] eqn:E5; [|discriminate].
  apply digits_exact_inv in E1 as (Hs & Hy1 & Hy2).
  apply literal_inv in E2. apply literal_inv in E4.
  apply digits_1_2_inv in E3 as (H3 & Hm1 & Hm2 & _).
  apply digits_1_2_inv in E5 as (H5 & Hd1 & Hd2 & Hnext).
  rewrite Hend in H.
  destruct (sep_d re) as [c|] eqn:Esd.
  - destruct (literal c r5) as [r6|] eqn:E6; [|discriminate].
    apply literal_inv in E6. inversion H; subst mt; simpl.
    constructor; try (split; assumption).
    + rewrite Esd. simpl. congruence.
    + rewrite Esd. discriminate.
  - inversion H; subst mt; simpl.
    constructor; try (split; assumption).
    + rewrite Esd. simpl. congruence.
    + intros _. exact Hnext.
Qed.

Lemma re_match_full (re : date_re) (s : pystr) :
  to_end re = true ->
  re_match re s
  = match re_match (prefix_of re) s with
    | Some mt =>
        if forallb isspace (after mt)
        then Some {| grp_y := grp_y mt; grp_m := grp_m mt;
                     grp_d := grp_d mt; after := [] |}
        else None
    | None => None
    end.
Proof.
  intros Hend. unfold re_match.
  cbn [prefix_of sep_y sep_m sep_d to_end]. rewrite Hend.
  destruct (digits_exact 4 (lstrip s)) as [[y r1]|]; [|reflexivity].
  destruct (literal (sep_y re) r1) as [r2|]; [|reflexivity].
  destruct (digits_1_2 r2) as [[m r3]|]; [|reflexivity].
  destruct (literal (sep_m re) r3) as [r4|]; [|reflexivity].
  destruct (digits_1_2 r4) as [[d r5]|]; [|reflexivity].
  destruct (match sep_d re with Some c => literal c r5 | None => Some r5 end);
    reflexivity.
Qed.

Lemma sep_ok_cn : sep_ok DATE_RE_CN_PREFIX.
Proof. split; reflexivity. Qed.

Lemma sep_ok_std : sep_ok DATE_RE_STD_PREFIX.
Proof. split; [reflexivity|exact I]. Qed.

(** The two forms exclude each other: the fifth character differs. *)
Lemma forms_disjoint (s y m d rest y' m' d' rest' : pystr) :
  date_form DATE_RE_CN_PREFIX s y m d rest ->
  date_form DATE_RE_STD_PREFIX s y' m' d' rest' -> False.
Proof.
  intros [Ht [Hy _] _ _ _] [Ht' [Hy' _] _ _ _]. simpl in Ht, Ht'.
  rewrite Ht in Ht'.
  destruct y as [|a [|b [|c [|e [|? ?]]]]]; try discriminate.
  destruct y' as [|a' [|b' [|c' [|e' [|? ?]]]]]; try discriminate;
    simpl in Ht'; inversion Ht'.
Qed.

(** A text has at most one reading as a date of a given pattern. *)
Lemma date_form_unique (re : date_re) (s y m d rest y' m' d' rest' : pystr) :
  sep_ok re -> to_end re = false ->
  date_form re s y m d rest -> date_form re s y' m' d' rest' ->
  y = y' /\ m = m' /\ d = d' /\ rest = rest'.
Proof.
  intros Hok Hend F F'.
  pose proof (re_match_complete _ _ _ _ _ _ Hok Hend F) as E.
  rewrite (re_match_complete _ _ _ _ _ _ Hok Hend F') in E.
  inversion E. auto.
Qed.

End MatcherFacts.

(* ================================================================== *)
(** ** The two date functions *)

Section DateFunctions.

Lemma render_match_eq (y m d rest : pystr) :
  render_match {| grp_y := y; grp_m := m; grp_d := d; after := rest |}
  = date_part (int_of_digits y) (int_of_digits m) (int_of_digits d)
    ++ suffix_part rest.
Proof.
  unfold render_match, suffix_part. simpl.
  destruct (truthy (strip rest)); [reflexivity|now rewrite app_nil_r].
Qed.

Lemma cn_match_on_stripped (s : pystr) (mt : date_match) :
  re_match DATE_RE_CN_PREFIX (strip s) = Some mt ->
  date_form DATE_RE_CN_PREFIX (strip s)
            (grp_y mt) (grp_m mt) (grp_d mt) (after mt).
Proof.
  intros H. apply re_match_sound in H; [|reflexivity].
  now rewrite lstrip_strip in H.
Qed.

Lemma std_match_on_stripped (s : pystr) (mt : date_match) :
  re_match DATE_RE_STD_PREFIX (strip s) = Some mt ->
  date_form DATE_RE_STD_PREFIX (strip s)
            (grp_y mt) (grp_m mt) (grp_d mt) (after mt).
Proof.
  intros H. apply re_match_sound in H; [|reflexivity].
  now rewrite lstrip_strip in H.
Qed.

Lemma std_form_no_cn_match (s y m d rest : pystr) :
  date_form DATE_RE_STD_PREFIX (strip s) y m d rest ->
  re_match DATE_RE_CN_PREFIX (strip s) = None.
Proof.
  intros Hstd.
  destruct (re_match DATE_RE_CN_PREFIX (strip s)) as [mt|] eqn:E;
    [|reflexivity].
  apply cn_match_on_stripped in E.
  destruct (forms_disjoint _ _ _ _ _ _ _ _ _ E Hstd).
Qed.

(** What [normalize_datetime] returns on a text that, once stripped,
    begins with a date. *)
Lemma normalize_datetime_some (s y m d rest : pystr) :
  date_prefix (strip s) y m d rest ->
  normalize_datetime s
  = Some (date_part (int_of_digits y) (int_of_digits m) (int_of_digits d)
          ++ suffix_part rest).
Proof.
  intros [Hcn|Hstd]; unfold normalize_datetime.
  - rewrite (re_match_complete _ _ _ _ _ _ sep_ok_cn eq_refl Hcn).
    now rewrite render_match_eq.
  - rewrite (std_form_no_cn_match _ _ _ _ _ Hstd).
    rewrite (re_match_complete _ _ _ _ _ _ sep_ok_std eq_refl Hstd).
    now rewrite render_match_eq.
Qed.

Lemma normalize_datetime_inv (s out : pystr) :
  normalize_datetime s = Some out ->
  exists y m d rest,
    date_prefix (strip s) y m d rest
    /\ out = date_part (int_of_digits y) (int_of_digits m) (int_of_digits d)
             ++ suffix_part rest.
Proof.
  unfold normalize_datetime. intros H.
  destruct (re_match DATE_RE_CN_PREFIX (strip s)) as [mt|] eqn:E1.
  - pose proof (cn_match_on_stripped _ _ E1) as F.
    destruct mt as [y m d rest]. simpl in F.
    exists y, m, d, rest. split; [now left|].
    rewrite render_match_eq in H. congruence.
  - destruct (re_match DATE_RE_STD_PREFIX (strip s)) as [mt|] eqn:E2;
      [|discriminate].
    pose proof (std_match_on_stripped _ _ E2) as F.
    destruct mt as [y m d rest]. simpl in F.
    exists y, m, d, rest. split; [now right|].
    rewrite render_match_eq in H. congruence.
Qed.

Lemma normalize_datetime_none (s : pystr) :
  (forall y m d rest, ~ date_prefix (strip s) y m d rest) ->
  normalize_datetime s = None.
Proof.
  intros Hno. destruct (normalize_datetime s) as [out|] eqn:E; [|reflexivity].
  apply normalize_datetime_inv in E as (y & m & d & rest & Hp & _).
  destruct (Hno _ _ _ _ Hp).
Qed.

(** The strict function on a text that, once stripped, is a date and
    nothing else. *)
Lemma full_match_complete (re : date_re) (s y m d : pystr) :
  sep_ok (prefix_of re) -> to_end re = true ->
  date_form (prefix_of re) s y m d [] ->
  re_match re s = Some {| grp_y := y; grp_m := m; grp_d := d; after := [] |}.
Proof.
  intros Hok Hend Hf. rewrite re_match_full by exact Hend.
  now rewrite (re_match_complete _ _ _ _ _ _ Hok eq_refl Hf).
Qed.

Lemma normalize_date_prefix_complete (s y m d : pystr) :
  date_prefix (strip s) y m d [] ->
  normalize_date_prefix s
  = match datetime (int_of_digits y) (int_of_digits m) (int_of_digits d) with
    | Some dt => Some (strftime_ymd dt)
    | None => None
    end.
Proof.
  intros [Hcn|Hstd]; unfold normalize_date_prefix.
  - rewrite (full_match_complete DATE_RE_CN_FULL _ _ _ _ sep_ok_cn eq_refl Hcn).
    reflexivity.
  - assert (Hnone : re_match DATE_RE_CN_FULL (strip s) = None).
    { rewrite re_match_full by reflexivity.
      change (prefix_of DATE_RE_CN_FULL) with DATE_RE_CN_PREFIX.
      now rewrite (std_form_no_cn_match _ _ _ _ _ Hstd). }
    rewrite Hnone.
    rewrite (full_match_complete DATE_RE_STD_FULL _ _ _ _ sep_ok_std eq_refl Hstd).
    reflexivity.
Qed.

(** Whatever the strict function returns is a rendering by
    [strftime_ymd]. *)
Lemma normalize_date_prefix_inv (s p : pystr) :
  normalize_date_prefix s = Some p ->
  exists y m d, datetime y m d = Some (y, m, d) /\ p = strftime_ymd (y, m, d).
Proof.
  assert (Hdt : forall y m d dt, datetime y m d = Some dt -> dt = (y, m, d)).
  { intros y m d dt. unfold datetime.
    destruct (_ && _); [congruence|discriminate]. }
  assert (Hs : forall mt, strict_match mt = Some p ->
                          exists y m d, datetime y m d = Some (y, m, d)
                                        /\ p = strftime_ymd (y, m, d)).
  { intros mt. unfold strict_match.
    destruct (datetime _ _ _) as [dt|] eqn:E; [|discriminate].
    intros [= <-]. pose proof (Hdt _ _ _ _ E) as ->. eauto. }
  unfold normalize_date_prefix.
  destruct (re_match DATE_RE_CN_FULL (strip s)); [apply Hs|].
  destruct (re_match DATE_RE_STD_FULL (strip s)); [apply Hs|discriminate].
Qed.

Lemma no_digit_ahead_rstrip (r : pystr) :
  no_digit_ahead r -> no_digit_ahead (rstrip r).
Proof.
  intros H. pose proof (rstrip_head r) as Hh.
  destruct (rstrip r) as [|c t]; [exact I|].
  destruct Hh as [t' ->]. exact H.
Qed.

(** A text that begins with a date still does once stripped; only the
    white space at the end of the remaining text is gone. *)
Lemma date_prefix_strip (s y m d rest : pystr) :
  date_prefix s y m d rest -> date_prefix (strip s) y m d (rstrip rest).
Proof.
  intros [F|F]; destruct F as [Ht [Hy1 Hy2] [Hm1 Hm2] [Hd1 Hd2] Hlong];
    unfold strip; subst s; rewrite all_digits_head_not_space by assumption.
  - left. simpl in *. constructor; try (split; assumption).
    + simpl.
      replace (y ++ CH_YEAR :: m ++ CH_MONTH :: d ++ CH_DAY :: rest)
        with ((y ++ CH_YEAR :: m ++ CH_MONTH :: d) ++ CH_DAY :: rest)
        by (now rewrite <- !app_assoc; simpl; rewrite <- !app_assoc).
      rewrite rstrip_after_nonspace by reflexivity.
      now rewrite <- !app_assoc; simpl; rewrite <- !app_assoc.
    + discriminate.
  - right. simpl in *. constructor; try (split; assumption).
    + simpl.
      assert (Hlast : exists d' c, d = d' ++ [c] /\ isspace c = false).
      { destruct d as [|c1 [|c2 [|c3 d]]]; simpl in Hd1;
          try (destruct Hd1; discriminate).
        - exists [], c1. split; [reflexivity|].
          inversion Hd2; subst. now apply digit_not_space.
        - exists [c1], c2. split; [reflexivity|].
          inversion Hd2 as [|? ? _ Hd3]; subst. inversion Hd3; subst.
          now apply digit_not_space. }
      destruct Hlast as (d' & c & -> & Hc).
      replace (y ++ CH_DASH :: m ++ CH_DASH :: (d' ++ [c]) ++ rest)
        with ((y ++ CH_DASH :: m ++ CH_DASH :: d') ++ c :: rest)
        by (now rewrite <- !app_assoc; simpl; rewrite <- !app_assoc).
      rewrite rstrip_after_nonspace by exact Hc.
      now rewrite <- !app_assoc; simpl; rewrite <- !app_assoc.
    + intros _ Hl. apply no_digit_ahead_rstrip. now apply Hlong.
Qed.

(** The first half of C2 for a text that has its date at position 0. *)
Lemma normalize_datetime_at_position_0 (s y m d rest : pystr) :
  date_prefix s y m d rest ->
  normalize_datetime s
  = Some (date_part (int_of_digits y) (int_of_digits m) (int_of_digits d)
          ++ suffix_part rest).
Proof.
  intros H. apply date_prefix_strip in H.
  rewrite (normalize_datetime_some _ _ _ _ _ H).
  unfold suffix_part. now rewrite strip_rstrip.
Qed.

End DateFunctions.

(* ================================================================== *)
(** ** The document splitter *)

Section Splitter.

Lemma split_loop_no_break (paras : list paragraph)
      (meetings : list (list pystr)) (cur : list pystr) :
  Forall (fun para => has_page_break para = false) paras ->
  split_loop paras meetings cur
  = match cur ++ nonblank_texts paras with
    | [] => meetings
    | g => meetings ++ [g]
    end.
Proof.
  intros Hno. revert cur.
  induction Hno as [|para paras Hp _ IH]; intros cur.
  - unfold nonblank_texts. simpl. rewrite app_nil_r.
    destruct cur; reflexivity.
  - simpl. rewrite Hp. unfold nonblank_texts in *. simpl.
    destruct (truthy (strip (para_text para))).
    + rewrite IH. now rewrite <- app_assoc.
    + now rewrite IH.
Qed.

Lemma split_loop_groups (paras : list paragraph)
      (meetings : list (list pystr)) (cur : list pystr) :
  Forall group_ok meetings ->
  Forall (fun ln => ln <> []) cur ->
  Forall group_ok (split_loop paras meetings cur).
Proof.
  revert meetings cur.
  induction paras as [|para paras IH]; intros meetings cur Hm Hc; simpl.
  - destruct cur as [|l cur]; [exact Hm|].
    apply Forall_app. split; [exact Hm|].
    constructor; [|constructor]. split; [discriminate|exact Hc].
  - set (cur' := if truthy (strip (para_text para))
                 then cur ++ [strip (para_text para)] else cur).
    assert (Hc' : Forall (fun ln => ln <> []) cur').
    { subst cur'. destruct (truthy (strip (para_text para))) eqn:E;
        [|exact Hc].
      apply Forall_app. split; [exact Hc|].
      constructor; [|constructor]. now apply truthy_true. }
    destruct (has_page_break para); [|now apply IH].
    destruct cur' as [|l t] eqn:E; [now apply IH|].
    apply IH; [|constructor].
    apply Forall_app. split; [exact Hm|].
    constructor; [|constructor]. split; [discriminate|exact Hc'].
Qed.

Lemma split_groups_ok (doc : document) :
  Forall group_ok (split_docx_by_page doc).
Proof. apply split_loop_groups; constructor. Qed.

End Splitter.

(* ================================================================== *)
(** ** The record extractor *)

Section Extractor.

Lemma startswith_app (p r : pystr) : startswith (p ++ r) p = true.
Proof. induction p as [|a p IH]; simpl; [reflexivity|]. now rewrite N.eqb_refl. Qed.

Lemma startswith_inv (s p : pystr) :
  startswith s p = true -> exists r, s = p ++ r.
Proof.
  revert s. induction p as [|a p IH]; intros s H; simpl in H.
  - now exists s.
  - destruct s as [|b s]; [discriminate|].
    apply andb_true_iff in H as [Hab Hs]. apply N.eqb_eq in Hab. subst b.
    destruct (IH _ Hs) as [r ->]. now exists r.
Qed.

(** A content marker starts with no other label. *)
Lemma marker_only_content (ln : pystr) :
  startswith ln LBL_CONTENT = true ->
  startswith ln LBL_TIME = false /\ startswith ln LBL_PLACE = false
  /\ startswith ln LBL_PEOPLE = false /\ startswith ln LBL_TOPIC = false.
Proof.
  intros H. apply startswith_inv in H as [r ->].
  split; [reflexivity|]. split; [reflexivity|]. split; reflexivity.
Qed.

Lemma scan_line_marker (st : scan_state) (ln : pystr) :
  startswith ln LBL_CONTENT = true ->
  content_lines (scan_line st ln) = content_lines st
  /\ content_started (scan_line st ln) = true.
Proof.
  intros H. destruct (marker_only_content _ H) as (H1 & H2 & H3 & H4).
  unfold scan_line. rewrite H1, H2, H3, H4, H. now split.
Qed.

(** After the marker a line is kept exactly when it starts with no
    label. *)
Lemma scan_line_started (st : scan_state) (ln : pystr) :
  content_started st = true ->
  content_started (scan_line st ln) = true
  /\ content_lines (scan_line st ln)
     = content_lines st ++ (if is_label ln then [] else [ln]).
Proof.
  intros Hs. unfold scan_line, is_label.
  destruct (startswith ln LBL_TIME);
    [simpl; now rewrite app_nil_r|].
  destruct (startswith ln LBL_PLACE);
    [simpl; now rewrite app_nil_r|].
  destruct (startswith ln LBL_PEOPLE);
    [simpl; now rewrite app_nil_r|].
  destruct (startswith ln LBL_TOPIC);
    [simpl; now rewrite app_nil_r|].
  destruct (startswith ln LBL_CONTENT);
    [simpl; now rewrite app_nil_r|].
  rewrite Hs. simpl. now split.
Qed.

Lemma scan_started (post : list pystr) (st : scan_state) :
  content_started st = true ->
  content_lines (fold_left scan_line post st)
  = content_lines st ++ filter (fun ln => negb (is_label ln)) post.
Proof.
  revert st. induction post as [|ln post IH]; intros st Hs; simpl.
  - now rewrite app_nil_r.
  - destruct (scan_line_started st ln Hs) as [Hs' Hc].
    rewrite (IH _ Hs'), Hc, <- app_assoc.
    now destruct (is_label ln).
Qed.

(** Before the first marker nothing is collected. *)
Lemma scan_line_not_started (st : scan_state) (ln : pystr) :
  content_started st = false -> content_lines st = [] ->
  startswith ln LBL_CONTENT = false ->
  content_started (scan_line st ln) = false
  /\ content_lines (scan_line st ln) = [].
Proof.
  intros Hs Hc Hm. unfold scan_line.
  destruct (startswith ln LBL_TIME); [now split|].
  destruct (startswith ln LBL_PLACE); [now split|].
  destruct (startswith ln LBL_PEOPLE); [now split|].
  destruct (startswith ln LBL_TOPIC); [now split|].
  rewrite Hm, Hs. now split.
Qed.

Lemma scan_before_marker (pre : list pystr) (st : scan_state) :
  content_started st = false -> content_lines st = [] ->
  Forall (fun ln => startswith ln LBL_CONTENT = false) pre ->
  content_started (fold_left scan_line pre st) = false
  /\ content_lines (fold_left scan_line pre st) = [].
Proof.
  intros Hs Hc Hpre. revert st Hs Hc.
  induction Hpre as [|ln pre Hln _ IH]; intros st Hs Hc; simpl.
  - now split.
  - destruct (scan_line_not_started st ln Hs Hc Hln) as [Hs' Hc'].
    now apply IH.
Qed.

(** The place value stays empty when no line carries the place label. *)
Lemma scan_line_no_place (st : scan_state) (ln : pystr) :
  startswith ln LBL_PLACE = false ->
  v_location (scan_line st ln) = v_location st.
Proof.
  intros H. unfold scan_line.
  destruct (startswith ln LBL_TIME); [reflexivity|]. rewrite H.
  destruct (startswith ln LBL_PEOPLE); [reflexivity|].
  destruct (startswith ln LBL_TOPIC); [reflexivity|].
  destruct (startswith ln LBL_CONTENT); [reflexivity|].
  now destruct (content_started st).
Qed.

Lemma scan_no_place (lines : list pystr) (st : scan_state) :
  Forall (fun ln => startswith ln LBL_PLACE = false) lines ->
  v_location (fold_left scan_line lines st) = v_location st.
Proof.
  intros H. revert st. induction H as [|ln lines Hln _ IH]; intros st; simpl.
  - reflexivity.
  - now rewrite IH, scan_line_no_place.
Qed.

Lemma extract_missing (first : pystr) (rest : list pystr) :
  date_str (scan rest) = [] \/ v_location (scan rest) = []
  \/ v_attendees (scan rest) = [] ->
  extract_record (first :: rest)
  = (None, Some MSG_MISSING, Some (join [CH_NL] (first :: rest))).
Proof.
  intros H. unfold extract_record.
  assert (E : negb (truthy (date_str (scan rest)))
              || negb (truthy (v_location (scan rest)))
              || negb (truthy (v_attendees (scan rest))) = true).
  { destruct H as [H|[H|H]]; rewrite H; simpl;
      repeat rewrite orb_true_r; reflexivity. }
  now rewrite E.
Qed.

(** A group that has a first line never yields the empty-document
    error. *)
Lemma extract_nonempty_not_empty_error (g : list pystr) :
  g <> [] -> err_of (extract_record g) <> Some MSG_EMPTY.
Proof.
  intros Hg. destruct g as [|first rest]; [contradiction|].
  unfold extract_record, err_of.
  destruct (_ || _); [simpl; discriminate|].
  destruct (normalize_datetime _) as [dn|]; [|simpl; discriminate].
  destruct (truthy dn); simpl; discriminate.
Qed.

End Extractor.

(* ================================================================== *)
(** ** The store *)

Section Store.

Lemma has_key_true (t d : pystr) (db : store) :
  has_key t d db = true
  <-> exists r, In r (rows db) /\ r_title r = t /\ r_date r = d.
Proof.
  unfold has_key. rewrite existsb_exists. split.
  - intros (r & Hin & H). apply andb_true_iff in H as [H1 H2].
    apply str_eqb_eq in H1. apply str_eqb_eq in H2. eauto.
  - intros (r & Hin & H1 & H2). exists r. split; [exact Hin|].
    rewrite H1, H2. now rewrite !str_eqb_refl.
Qed.

Lemma filter_keeps_all {A : Type} (f : A -> bool) (l : list A) :
  (forall x, In x l -> f x = true) -> filter f l = l.
Proof.
  induction l as [|x l IH]; intros H; simpl; [reflexivity|].
  rewrite (H x (or_introl eq_refl)). f_equal.
  apply IH. intros y Hy. apply H. now right.
Qed.

Lemma filter_drops_all {A : Type} (f : A -> bool) (l : list A) :
  (forall x, In x l -> f x = false) -> filter f l = [].
Proof.
  induction l as [|x l IH]; intros H; simpl; [reflexivity|].
  rewrite (H x (or_introl eq_refl)).
  apply IH. intros y Hy. apply H. now right.
Qed.

(** The messages of the two failures of an insert differ, and only
    the first carries the mark the importer looks for at its start. *)
Lemma duplicate_is_not_generic (e : pystr) :
  MSG_DUPLICATE <> MSG_INSERT_FAILED ++ e.
Proof. discriminate. Qed.

End Store.

(* ================================================================== *)
(** ** Ordering of the search results *)

Section Ordering.

Lemma str_compare_antisym (a b : pystr) :
  str_compare b a = CompOpp (str_compare a b).
Proof.
  revert b. induction a as [|x a IH]; intros [|y b]; simpl; try reflexivity.
  rewrite (N.compare_antisym x y).
  destruct (x ?= y); simpl; auto.
Qed.

Lemma comes_first_total (a b : row) :
  comes_first a b = false -> comes_first b a = true.
Proof.
  unfold comes_first. rewrite (str_compare_antisym (r_date a) (r_date b)).
  destruct (str_compare (r_date a) (r_date b)); simpl; try congruence.
  intros H. apply N.leb_gt in H. apply N.leb_le. lia.
Qed.

Lemma place_perm (r : row) (l : list row) : Permutation (r :: l) (place r l).
Proof.
  induction l as [|x l IH]; simpl; [apply Permutation_refl|].
  destruct (comes_first r x); [apply Permutation_refl|].
  eapply Permutation_trans; [apply perm_swap|]. now apply perm_skip.
Qed.

Lemma place_sorted (r : row) (l : list row) :
  Sorted in_order l -> Sorted in_order (place r l).
Proof.
  induction l as [|x l IH]; intros Hs; simpl.
  - repeat constructor.
  - destruct (comes_first r x) eqn:E.
    + constructor; [exact Hs|]. constructor. exact E.
    + inversion Hs as [|? ? Hs' Hhd]; subst.
      constructor; [now apply IH|].
      apply comes_first_total in E.
      destruct l as [|z l]; simpl.
      * constructor. exact E.
      * destruct (comes_first r z); constructor; [exact E|].
        now inversion Hhd.
Qed.

Lemma order_by_sorted (l : list row) :
  Sorted in_order (order_by_date_id_desc l).
Proof.
  induction l as [|r l IH]; simpl; [constructor|now apply place_sorted].
Qed.

Lemma order_by_perm (l : list row) :
  Permutation l (order_by_date_id_desc l).
Proof.
  induction l as [|r l IH]; simpl; [constructor|].
  eapply Permutation_trans; [|apply place_perm]. now apply perm_skip.
Qed.

(** What the query returns for every store and every keywords: the
    rows that satisfy the clauses, each once, ordered by the date TEXT
    (largest first) and then by id (largest first). *)
Lemma search_sorted_by_text (db : store) (t d l a tp c : pystr) :
  Sorted in_order (segmented_search_exact_six db t d l a tp c)
  /\ Permutation (filter (where_sql (build_clauses t d l a tp c)) (rows db))
                 (segmented_search_exact_six db t d l a tp c).
Proof.
  unfold segmented_search_exact_six. split;
    [apply order_by_sorted|apply order_by_perm].
Qed.

Lemma str_compare_eq (a b : pystr) : str_compare a b = Eq <-> a = b.
Proof.
  revert b. induction a as [|x a IH]; intros [|y b]; simpl;
    try (split; congruence).
  destruct (x ?= y) eqn:E.
  - apply N.compare_eq in E. subst y. rewrite IH. split; congruence.
  - split; [discriminate|]. intros [= -> _].
    rewrite N.compare_refl in E. discriminate.
  - split; [discriminate|]. intros [= -> _].
    rewrite N.compare_refl in E. discriminate.
Qed.

Lemma str_compare_gt_trans (a b c : pystr) :
  str_compare a b = Gt -> str_compare b c = Gt -> str_compare a c = Gt.
Proof.
  revert b c. induction a as [|x a IH]; intros [|y b] [|z c]; simpl;
    try congruence.
  destruct (x ?= y) eqn:Exy; destruct (y ?= z) eqn:Eyz; try discriminate;
    try apply N.compare_eq in Exy; try apply N.compare_eq in Eyz; subst.
  - rewrite N.compare_refl. apply IH.
  - rewrite Eyz. reflexivity.
  - rewrite Exy. reflexivity.
  - intros _ _. apply N.compare_gt_iff in Exy. apply N.compare_gt_iff in Eyz.
    replace (x ?= z) with Gt; [reflexivity|].
    symmetry. apply N.compare_gt_iff. lia.
Qed.

Lemma comes_first_trans (a b c : row) :
  comes_first a b = true -> comes_first b c = true -> comes_first a c = true.
Proof.
  unfold comes_first.
  destruct (str_compare (r_date a) (r_date b)) eqn:Eab; try discriminate;
    destruct (str_compare (r_date b) (r_date c)) eqn:Ebc; try discriminate.
  - apply str_compare_eq in Eab. apply str_compare_eq in Ebc.
    rewrite Eab, Ebc. rewrite (proj2 (str_compare_eq _ _) eq_refl).
    intros H1 H2. apply N.leb_le in H1. apply N.leb_le in H2.
    apply N.leb_le. lia.
  - apply str_compare_eq in Eab. rewrite Eab, Ebc. reflexivity.
  - apply str_compare_eq in Ebc. rewrite <- Ebc, Eab. reflexivity.
  - now rewrite (str_compare_gt_trans _ _ _ Eab Ebc).
Qed.

(** Every row of the result may stand before every later one. *)
Lemma search_strongly_sorted (db : store) (t d l a tp c : pystr) :
  StronglySorted in_order (segmented_search_exact_six db t d l a tp c).
Proof.
  apply Sorted_StronglySorted.
  - intros x y z. apply comes_first_trans.
  - apply search_sorted_by_text.
Qed.

End Ordering.

(* ================================================================== *)
(** ** The date filter against the stored form *)

Section DateFilter.

Lemma digits_from_shape (fuel : nat) (n : N) (acc : pystr) :
  exists ds, digits_from fuel n acc = ds ++ acc
             /\ Forall ascii_digit ds
             /\ (fuel <> O -> ds <> []).
Proof.
  revert n acc. induction fuel as [|f IH]; intros n acc; cbn [digits_from].
  - exists []. split; [reflexivity|]. split; [constructor|congruence].
  - assert (Hd : ascii_digit (0x30 + n mod 10)).
    { unfold ascii_digit.
      assert (H : n mod 10 < 10) by (apply N.mod_upper_bound; discriminate).
      revert H. generalize (n mod 10). intros k H. lia. }
    destruct (n / 10 =? 0).
    + exists [0x30 + n mod 10]. split; [reflexivity|].
      split; [constructor; [exact Hd|constructor]|discriminate].
    + destruct (IH (n / 10) ((0x30 + n mod 10) :: acc)) as (ds & E & Hds & _).
      exists (ds ++ [0x30 + n mod 10]). rewrite E, <- app_assoc.
      split; [reflexivity|]. split.
      * apply Forall_app. split; [exact Hds|].
        constructor; [exact Hd|constructor].
      * intros _ H. now apply app_eq_nil in H as [_ H].
Qed.

Lemma str_of_int_shape (n : N) :
  Forall ascii_digit (str_of_int n) /\ str_of_int n <> [].
Proof.
  unfold str_of_int.
  destruct (digits_from_shape (S (N.to_nat (N.log2 n))) n [])
    as (ds & E & Hds & Hne).
  rewrite E, app_nil_r. split; [exact Hds|]. now apply Hne.
Qed.

Lemma zfill_digits (w : nat) (s : pystr) :
  Forall ascii_digit s -> Forall ascii_digit (zfill w s).
Proof.
  intros H. unfold zfill. apply Forall_app. split; [|exact H].
  induction (w - length s)%nat; simpl; constructor;
    [unfold ascii_digit; lia|assumption].
Qed.

(** A stored date starts with ASCII digits closed by the year sign. *)
Lemma normalized_shape (s out : pystr) :
  normalize_datetime s = Some out ->
  exists ds r, out = ds ++ CH_YEAR :: r /\ Forall ascii_digit ds.
Proof.
  intros H. apply normalize_datetime_inv in H as (y & m & d & rest & _ & ->).
  exists (str_of_int (int_of_digits y)). eexists. split.
  - unfold date_part. rewrite <- !app_assoc. simpl. reflexivity.
  - apply str_of_int_shape.
Qed.

(** A search prefix starts with ASCII digits closed by a dash. *)
Lemma prefix_shape (s p : pystr) :
  normalize_date_prefix s = Some p ->
  exists ds r, p = ds ++ CH_DASH :: r /\ Forall ascii_digit ds.
Proof.
  intros H. apply normalize_date_prefix_inv in H as (y & m & d & _ & ->).
  exists (zfill 4 (str_of_int y)). eexists. split.
  - unfold strftime_ymd. simpl. reflexivity.
  - apply zfill_digits, str_of_int_shape.
Qed.

Lemma like_plain (c x : char) (pat s : pystr) :
  c <> CH_PERCENT -> c <> CH_UNDERSCORE ->
  like (c :: pat) (x :: s) = (fold_case c =? fold_case x) && like pat s.
Proof.
  intros H1 H2. simpl.
  apply N.eqb_neq in H1. apply N.eqb_neq in H2. now rewrite H1, H2.
Qed.


Lemma digit_vs_digit_fold (c x : char) :
  ascii_digit c -> fold_case c = c /\ c <> CH_PERCENT /\ c <> CH_UNDERSCORE.
Proof.
  unfold ascii_digit, fold_case, CH_PERCENT, CH_UNDERSCORE. intros H.
  repeat split; try lia.
  destruct (0x41 <=? c) eqn:E; [apply N.leb_le in E; lia|reflexivity].
Qed.

Lemma fold_case_cases (x : char) :
  fold_case x = x \/ (0x61 <= fold_case x <= 0x7A).
Proof.
  unfold fold_case.
  destruct (0x41 <=? x) eqn:E1; [|now left].
  destruct (x <=? 0x5A) eqn:E2; [|now left].
  apply N.leb_le in E1. apply N.leb_le in E2. simpl. right. lia.
Qed.

(** No text of the stored form matches a pattern of the prefix form:
    where the pattern has its dash the text has a digit or the year
    sign, and where the text has the year sign the pattern has a digit
    or the dash. *)
Lemma like_dash_vs_year (ps ds q r : pystr) :
  Forall ascii_digit ps -> Forall ascii_digit ds ->
  like (ps ++ CH_DASH :: q) (ds ++ CH_YEAR :: r) = false.
Proof.
  intros Hps. revert ds.
  induction Hps as [|p ps Hp _ IH]; intros ds Hds; simpl app.
  - destruct ds as [|x ds]; simpl app.
    + reflexivity.
    + inversion Hds as [|? ? Hx _]; subst.
      rewrite like_plain by discriminate.
      destruct (digit_vs_digit_fold x x Hx) as (Hf & _).
      rewrite Hf. unfold ascii_digit in Hx.
      replace (fold_case CH_DASH =? x) with false; [reflexivity|].
      symmetry. apply N.eqb_neq. change (fold_case CH_DASH) with 0x2D. lia.
  - destruct (digit_vs_digit_fold p p Hp) as (Hf & Hn1 & Hn2).
    destruct ds as [|x ds]; simpl app.
    + rewrite like_plain by assumption. rewrite Hf.
      replace (p =? fold_case CH_YEAR) with false; [reflexivity|].
      symmetry. apply N.eqb_neq. change (fold_case CH_YEAR) with 0x5E74.
      unfold ascii_digit in Hp. lia.
    + inversion Hds as [|? ? Hx Hds']; subst.
      rewrite like_plain by assumption.
      rewrite (IH ds Hds'). apply andb_false_r.
Qed.

Lemma where_sql_app (cs1 cs2 : list clause) (r : row) :
  where_sql (cs1 ++ cs2) r = where_sql cs1 r && where_sql cs2 r.
Proof. unfold where_sql. apply forallb_app. Qed.

(** On a store whose dates all come out of [normalize_datetime], a
    search with a date keyword that the strict function accepts finds
    nothing, whatever the other keywords are. *)
Lemma date_filter_finds_nothing (db : store) (t d l a tp c : pystr) :
  Forall (fun r => exists s, normalize_datetime s = Some (r_date r)) (rows db) ->
  normalize_date_prefix (strip d) <> None ->
  segmented_search_exact_six db t d l a tp c = [].
Proof.
  intros Hrows Hacc.
  destruct (normalize_date_prefix (strip d)) as [p|] eqn:Ep; [|congruence].
  assert (Hd : truthy (strip d) = true).
  { destruct (strip d) eqn:E; [vm_compute in Ep; discriminate|reflexivity]. }
  destruct (prefix_shape _ _ Ep) as (ps & q & -> & Hps).
  unfold segmented_search_exact_six.
  rewrite filter_drops_all; [reflexivity|].
  intros r Hr. unfold build_clauses. rewrite !app_assoc, where_sql_app.
  apply andb_false_iff. right.
  unfold date_clause. rewrite Hd, Ep.
  replace (truthy (ps ++ CH_DASH :: q)) with true
    by (now destruct ps).
  unfold where_sql. simpl. rewrite andb_true_r.
  rewrite Forall_forall in Hrows. destruct (Hrows r Hr) as [s Hs].
  destruct (normalized_shape _ _ Hs) as (ds & rr & -> & Hds).
  rewrite <- app_assoc. simpl app. now apply like_dash_vs_year.
Qed.

(** A date keyword the strict function rejects leaves the query as it
    is without a date keyword. *)
Lemma rejected_date_keyword_dropped (db : store) (t d l a tp c : pystr) :
  normalize_date_prefix (strip d) = None ->
  segmented_search_exact_six db t d l a tp c
  = segmented_search_exact_six db t [] l a tp c.
Proof.
  intros H. unfold segmented_search_exact_six, build_clauses, date_clause.
  rewrite H. now destruct (truthy (strip d)).
Qed.

End DateFilter.

(* ================================================================== *)
(** ** The date normalizer (C2, C10) *)

Section NormalizerClaims.

Lemma date_form_head_digit (re : date_re) (s y m d rest : pystr) :
  date_form re s y m d rest ->
  match s with c :: _ => isdecimal c = true | [] => False end.
Proof.
  intros [Ht [Hl Hd] _ _ _]. subst s.
  destruct y as [|c y]; [discriminate|]. now inversion Hd.
Qed.

Lemma no_match_no_prefix (s : pystr) :
  re_match DATE_RE_CN_PREFIX s = None ->
  re_match DATE_RE_STD_PREFIX s = None ->
  forall y m d rest, ~ date_prefix s y m d rest.
Proof.
  intros H1 H2 y m d rest [F|F].
  - rewrite (re_match_complete _ _ _ _ _ _ sep_ok_cn eq_refl F) in H1.
    discriminate.
  - rewrite (re_match_complete _ _ _ _ _ _ sep_ok_std eq_refl F) in H2.
    discriminate.
Qed.

End NormalizerClaims.

(** A concrete text against the description, by computation. *)
Ltac date_form_by_computation :=
  constructor;
  [ reflexivity
  | split; [reflexivity|repeat constructor]
  | split; [first [left; reflexivity|right; reflexivity]|repeat constructor]
  | split; [first [left; reflexivity|right; reflexivity]|repeat constructor]
  | first [easy|intros; reflexivity|intros; exact I] ].

(** C2, as the code has it.  Let [t] be the input with the white space at
    both ends removed.  If the input or [t] begins with a date in one of
    the two forms
    (four digits, separator, one or two digits, separator, one or two
    digits, and 日 in the Chinese form; the day taken as long as possible
    in the dashed form), with digit groups [y], [m], [d] and remaining
    text [rest], the normalizer returns the three numbers written in
    decimal as "<y>年<m>月<d>日", followed, when [rest] is more than white
    space, by one space and [rest] without the white space at its ends.
    If [t] begins with no such date, the normalizer returns [None]. *)
Theorem normalize_datetime_after_strip (s : pystr) :
  (forall y m d rest,
      date_prefix s y m d rest \/ date_prefix (strip s) y m d rest ->
      normalize_datetime s
      = Some (date_part (int_of_digits y) (int_of_digits m) (int_of_digits d)
              ++ suffix_part rest))
  /\ ((forall y m d rest, ~ date_prefix (strip s) y m d rest) ->
      normalize_datetime s = None).
Proof.
  split.
  - intros y m d rest [H|H].
    + now apply normalize_datetime_at_position_0.
    + now apply normalize_datetime_some.
  - apply normalize_datetime_none.
Qed.

Lemma normalize_datetime_after_strip_witness :
  (date_prefix (strip (U " 2024-03-05  下午3点 "))
               (U "2024") (U "03") (U "05") (U "  下午3点")
   /\ normalize_datetime (U " 2024-03-05  下午3点 ")
      = Some (U "2024年3月5日 下午3点"))
  /\ ((forall y m d rest, ~ date_prefix (strip (U "2024年3月")) y m d rest)
      /\ normalize_datetime (U "2024年3月") = None).
Proof.
  assert (H1 : date_prefix (strip (U " 2024-03-05  下午3点 "))
                           (U "2024") (U "03") (U "05") (U "  下午3点"))
    by (right; date_form_by_computation).
  assert (H2 : forall y m d rest,
             ~ date_prefix (strip (U "2024年3月")) y m d rest)
    by (apply no_match_no_prefix; reflexivity).
  split; split; [exact H1| |exact H2|].
  - exact (proj1 (normalize_datetime_after_strip (U " 2024-03-05  下午3点 "))
                 _ _ _ _ (or_intror H1)).
  - exact (proj2 (normalize_datetime_after_strip (U "2024年3月")) H2).
Defined.

(** C2 as it is written fails: the text " 2024年3月5日" starts with a
    space, so neither date form stands at its position 0, and yet the
    normalizer accepts it. *)
Lemma leading_space_is_accepted :
  (forall y m d rest, ~ date_prefix (U " 2024年3月5日") y m d rest)
  /\ normalize_datetime (U " 2024年3月5日") = Some (U "2024年3月5日").
Proof.
  split; [|reflexivity].
  intros y m d rest [F|F]; apply date_form_head_digit in F;
    vm_compute in F; discriminate.
Qed.

(** C10.  The prefix-tolerant normalizer accepts every text that begins
    (after stripping) with a date of the right lexical shape, whatever the
    numbers are, for instance "2024年13月99日"; the strict function
    returns [None] for every complete date of the right shape that the
    calendar does not have, for instance "2024-02-30"; so the two
    functions disagree on "2024-02-30". *)
Theorem normalize_datetime_skips_calendar_check :
  (forall s y m d rest,
      date_prefix s y m d rest \/ date_prefix (strip s) y m d rest ->
      exists out, normalize_datetime s = Some out)
  /\ normalize_datetime (U "2024年13月99日") = Some (U "2024年13月99日")
  /\ (forall s y m d,
         date_prefix s y m d [] \/ date_prefix (strip s) y m d [] ->
         datetime (int_of_digits y) (int_of_digits m) (int_of_digits d) = None ->
         normalize_date_prefix s = None)
  /\ normalize_date_prefix (U "2024-02-30") = None
  /\ normalize_datetime (U "2024-02-30") = Some (U "2024年2月30日").
Proof.
  split; [|split; [reflexivity|split; [|split; reflexivity]]].
  - intros s y m d rest [H|H]; eexists.
    + exact (normalize_datetime_at_position_0 _ _ _ _ _ H).
    + exact (normalize_datetime_some _ _ _ _ _ H).
  - intros s y m d H Hinv.
    assert (H' : date_prefix (strip s) y m d []).
    { destruct H as [H|H]; [|exact H]. now apply date_prefix_strip in H. }
    rewrite (normalize_date_prefix_complete _ _ _ _ H'). now rewrite Hinv.
Qed.

Lemma normalize_datetime_skips_calendar_check_witness :
  (date_prefix (U "2024年2月30日 上午") (U "2024") (U "2") (U "30") (U " 上午")
   /\ exists out, normalize_datetime (U "2024年2月30日 上午") = Some out)
  /\ (date_prefix (strip (U " 2024年2月30日 ")) (U "2024") (U "2") (U "30") []
      /\ datetime 2024 2 30 = None
      /\ normalize_date_prefix (U " 2024年2月30日 ") = None).
Proof.
  destruct normalize_datetime_skips_calendar_check as (H1 & _ & H3 & _).
  assert (F1 : date_prefix (U "2024年2月30日 上午")
                           (U "2024") (U "2") (U "30") (U " 上午"))
    by (left; date_form_by_computation).
  assert (F2 : date_prefix (strip (U " 2024年2月30日 "))
                           (U "2024") (U "2") (U "30") [])
    by (left; date_form_by_computation).
  split; split; [exact F1| |exact F2|split; [reflexivity|]].
  - exact (H1 _ _ _ _ _ (or_introl F1)).
  - exact (H3 _ _ _ _ (or_intror F2) eq_refl).
Defined.

(* ================================================================== *)
(** ** The document splitter (C7, C9) *)

Section SplitterClaims.

(** The groups, put end to end, are the non-blank texts of the
    document in their order: no text is lost, repeated or moved. *)
Lemma split_loop_concat (paras : list paragraph)
      (meetings : list (list pystr)) (cur : list pystr) :
  concat (split_loop paras meetings cur)
  = concat meetings ++ cur ++ nonblank_texts paras.
Proof.
  revert meetings cur.
  induction paras as [|para paras IH]; intros meetings cur.
  - unfold nonblank_texts. simpl. rewrite app_nil_r.
    destruct cur as [|l cur]; [now rewrite app_nil_r|].
    rewrite concat_app. simpl. now rewrite app_nil_r.
  - simpl split_loop.
    assert (E : (if truthy (strip (para_text para))
                 then cur ++ [strip (para_text para)] else cur)
                ++ nonblank_texts paras
                = cur ++ nonblank_texts (para :: paras)).
    { unfold nonblank_texts. simpl.
      destruct (truthy (strip (para_text para)));
        [now rewrite <- app_assoc|reflexivity]. }
    destruct (has_page_break para).
    + destruct (if truthy (strip (para_text para))
                then cur ++ [strip (para_text para)] else cur)
        as [|l t] eqn:Ec.
      * rewrite IH. now rewrite <- E.
      * rewrite IH, concat_app. simpl. rewrite app_nil_r, <- app_assoc.
        now rewrite <- E.
    + rewrite IH. now rewrite <- E.
Qed.

Lemma split_concat (doc : document) :
  concat (split_docx_by_page doc) = nonblank_texts doc.
Proof. unfold split_docx_by_page. now rewrite split_loop_concat. Qed.

End SplitterClaims.

(** C7, as the code has it.  For a document without any manual page
    break: when at least one paragraph has text other than white space,
    the splitter yields exactly one group, made of the stripped texts of
    those paragraphs in their order; when no paragraph has such text, it
    yields no group at all. *)
Theorem split_without_page_break (doc : document) :
  Forall (fun para => has_page_break para = false) doc ->
  split_docx_by_page doc
  = match nonblank_texts doc with
    | [] => []
    | g => [g]
    end.
Proof.
  intros H. unfold split_docx_by_page.
  now rewrite (split_loop_no_break doc [] [] H).
Qed.

Lemma split_without_page_break_witness :
  Forall (fun para => has_page_break para = false) (map plain weekly_lines)
  /\ split_docx_by_page (map plain weekly_lines) = [weekly_lines].
Proof.
  assert (H : Forall (fun para => has_page_break para = false)
                     (map plain weekly_lines))
    by (repeat constructor).
  split; [exact H|].
  rewrite (split_without_page_break (map plain weekly_lines) H).
  reflexivity.
Defined.

(** C7 as it is written fails: a new document, whose single paragraph
    has no text, has no page break, and the splitter yields no group for
    it instead of one. *)
Lemma blank_document_has_no_group :
  Forall (fun para => has_page_break para = false) blank_doc
  /\ split_docx_by_page blank_doc = []
  /\ length (split_docx_by_page blank_doc) <> 1%nat.
Proof.
  split; [repeat constructor|]. split; [reflexivity|discriminate].
Qed.

(** C9.  Every group the splitter yields has at least one line (and all
    its lines are non-empty); hence the extractor never answers "empty
    document" for a group of the splitter; the groups put end to end are
    the non-blank texts of the document, so that a document without such
    text, the empty one included, yields no group. *)
Theorem split_groups_never_empty (doc : document) :
  Forall group_ok (split_docx_by_page doc)
  /\ Forall (fun p => err_of p <> Some MSG_EMPTY)
            (parse_docx_to_records (Readable doc))
  /\ concat (split_docx_by_page doc) = nonblank_texts doc
  /\ split_docx_by_page [] = [].
Proof.
  pose proof (split_groups_ok doc) as Hg.
  split; [exact Hg|]. split; [|split; [apply split_concat|reflexivity]].
  simpl. apply Forall_map. eapply Forall_impl; [|exact Hg].
  intros g [Hne _]. now apply extract_nonempty_not_empty_error.
Qed.

(* ================================================================== *)
(** ** The record extractor (C3, C6) *)

(** C3, as the code has it.  After the first content marker of a group,
    the lines that start with none of the five labels are collected, in
    order and unchanged, and no other line is: a later line that starts
    with a label is read as a label line.  The content of the record is
    the collected lines joined by newlines, without the white space at
    both ends. *)
Theorem content_after_marker_skips_labels
        (first : pystr) (pre : list pystr) (marker : pystr) (post : list pystr) :
  Forall (fun ln => startswith ln LBL_CONTENT = false) pre ->
  startswith marker LBL_CONTENT = true ->
  content_lines (scan (pre ++ marker :: post))
  = filter (fun ln => negb (is_label ln)) post
  /\ forall rec,
      extract_record (first :: pre ++ marker :: post) = (Some rec, None, None) ->
      content rec
      = strip (join [CH_NL] (filter (fun ln => negb (is_label ln)) post)).
Proof.
  intros Hpre Hm.
  assert (E : content_lines (scan (pre ++ marker :: post))
              = filter (fun ln => negb (is_label ln)) post).
  { unfold scan. rewrite fold_left_app. simpl.
    destruct (scan_before_marker pre scan_init eq_refl eq_refl Hpre) as [_ Hc].
    destruct (scan_line_marker (fold_left scan_line pre scan_init) marker Hm)
      as [Hc' Hs'].
    rewrite (scan_started post _ Hs'), Hc', Hc. reflexivity. }
  split; [exact E|].
  intros rec H. unfold extract_record in H.
  destruct (_ || _); [discriminate|].
  destruct (normalize_datetime _) as [dn|]; [|discriminate].
  destruct (truthy dn); [|discriminate].
  inversion H; subst rec; simpl. now rewrite E.
Qed.

Lemma content_after_marker_skips_labels_witness :
  Forall (fun ln => startswith ln LBL_CONTENT = false)
         (firstn 3 (tl late_topic_lines))
  /\ startswith (U "会议内容：") LBL_CONTENT = true
  /\ content_lines (scan (tl late_topic_lines)) = [U "讨论预算方案"]
  /\ forall rec,
      extract_record late_topic_lines = (Some rec, None, None) ->
      content rec = U "讨论预算方案".
Proof.
  assert (H1 : Forall (fun ln => startswith ln LBL_CONTENT = false)
                      (firstn 3 (tl late_topic_lines)))
    by (repeat constructor).
  split; [exact H1|]. split; [reflexivity|].
  exact (content_after_marker_skips_labels
           (U "周例会") (firstn 3 (tl late_topic_lines)) (U "会议内容：")
           (map U ["会议议题：预算"; "讨论预算方案"]%string) H1 eq_refl).
Defined.

(** C3 as it is written fails: in these minutes the topic line comes
    after the content marker; it is not appended to the content but read
    as the topic. *)
Lemma label_after_marker_not_in_content :
  exists rec,
    extract_record late_topic_lines = (Some rec, None, None)
    /\ topic rec = U "预算"
    /\ content rec = U "讨论预算方案"
    /\ content rec <> join [CH_NL] [U "会议议题：预算"; U "讨论预算方案"].
Proof.
  eexists. split; [reflexivity|]. simpl.
  split; [reflexivity|]. split; [reflexivity|discriminate].
Qed.

(** C6.  A group with a first line whose scan leaves the date, the place
    or the attendees empty yields the error "missing required field" with
    the lines joined by newlines as raw text, whatever the date text is:
    the date is looked at only afterwards, and the two errors differ. *)
Theorem missing_field_reported_first (lines : list pystr) :
  lines <> [] ->
  date_str (scan (tl lines)) = [] \/ v_location (scan (tl lines)) = []
  \/ v_attendees (scan (tl lines)) = [] ->
  extract_record lines = (None, Some MSG_MISSING, Some (join [CH_NL] lines))
  /\ MSG_MISSING <> MSG_BAD_DATE.
Proof.
  intros Hne H. destruct lines as [|first rest]; [contradiction|].
  split; [now apply extract_missing|discriminate].
Qed.

Lemma missing_field_reported_first_witness :
  no_place_lines <> []
  /\ v_location (scan (tl no_place_lines)) = []
  /\ normalize_datetime (date_str (scan (tl no_place_lines))) = None
  /\ extract_record no_place_lines
     = (None, Some MSG_MISSING, Some (join [CH_NL] no_place_lines)).
Proof.
  assert (H1 : no_place_lines <> []) by discriminate.
  split; [exact H1|]. split; [reflexivity|]. split; [reflexivity|].
  exact (proj1 (missing_field_reported_first no_place_lines H1
                                             (or_intror (or_introl eq_refl)))).
Defined.

(** The example of C6: a group without a line that starts with the place
    label. *)
Lemma no_place_line_is_missing_field (first : pystr) (rest : list pystr) :
  Forall (fun ln => startswith ln LBL_PLACE = false) rest ->
  extract_record (first :: rest)
  = (None, Some MSG_MISSING, Some (join [CH_NL] (first :: rest))).
Proof.
  intros H. apply extract_missing. right. left.
  unfold scan. now rewrite scan_no_place.
Qed.

(* ================================================================== *)
(** ** The store operations (C5, C8) *)

(** C5.  When the store already holds a row with the title and the date
    of the record, the insert answers [(False, duplicate message)] and
    leaves the store as it was; the message differs from that of every
    other failure of an insert, and the importer counts the record as a
    duplicate, not as an error. *)
Theorem insert_duplicate_reported (db : store) (rec : meeting) :
  (exists r, In r (rows db) /\ r_title r = title rec /\ r_date r = date rec) ->
  insert_meeting Runs db rec = (db, (false, Some MSG_DUPLICATE))
  /\ (forall e, snd (insert_meeting (Raises e) db rec)
                <> (false, Some MSG_DUPLICATE))
  /\ forall t,
      import_one (db, t) (Some rec, None, None)
      = (db, {| ok_count := ok_count t; dup_count := S (dup_count t);
                errors := errors t |}).
Proof.
  intros H. apply has_key_true in H.
  assert (E : insert_meeting Runs db rec = (db, (false, Some MSG_DUPLICATE)))
    by (unfold insert_meeting; now rewrite H).
  split; [exact E|]. split.
  - intros e F. simpl in F. discriminate F.
  - intros t. unfold import_one. cbn [is_error]. rewrite E. reflexivity.
Qed.

Lemma insert_duplicate_reported_witness :
  (exists r, In r (rows weekly_store)
             /\ r_title r = title same_key_rec /\ r_date r = date same_key_rec)
  /\ insert_meeting Runs weekly_store same_key_rec
     = (weekly_store, (false, Some MSG_DUPLICATE)).
Proof.
  assert (H : exists r, In r (rows weekly_store)
                        /\ r_title r = title same_key_rec
                        /\ r_date r = date same_key_rec).
  { eexists. split; [left; reflexivity|]. split; reflexivity. }
  split; [exact H|].
  exact (proj1 (insert_duplicate_reported weekly_store same_key_rec H)).
Defined.

(** C8.  Deleting by an identity that no row has answers [(True, None)]
    and leaves the store as it was; and the answer of a delete is
    [(True, None)] for every store and every identity, so that nothing
    tells a delete that found no row from one that removed a row. *)
Theorem delete_absent_succeeds (db : store) (rec_id : N) :
  (forall r, In r (rows db) -> id r <> rec_id) ->
  delete_meeting Runs db rec_id = (db, (true, None))
  /\ forall db' rec_id', snd (delete_meeting Runs db' rec_id') = (true, None).
Proof.
  intros H. split; [|reflexivity].
  unfold delete_meeting. rewrite filter_keeps_all.
  - now destruct db.
  - intros r Hr. apply negb_true_iff. apply N.eqb_neq. now apply H.
Qed.

Lemma delete_absent_succeeds_witness :
  (forall r, In r (rows weekly_store) -> id r <> 7)
  /\ delete_meeting Runs weekly_store 7 = (weekly_store, (true, None)).
Proof.
  assert (H : forall r, In r (rows weekly_store) -> id r <> 7).
  { intros r [<-|[]]. discriminate. }
  split; [exact H|].
  exact (proj1 (delete_absent_succeeds weekly_store 7 H)).
Defined.

(* ================================================================== *)
(** ** Search (C1, C4) *)

(** C1, at the input where the code departs from it.  The store holds
    the weekly meeting as the importer wrote it, dated "2024年3月5日",
    5 March 2024.  The date keyword "2024年3月5日" is accepted and turned
    into the prefix "2024-03-05"; the stored date does not begin with it,
    and the search returns nothing. *)
Theorem date_search_misses_imported_meeting :
  map r_date (rows weekly_store) = [U "2024年3月5日"]
  /\ map (fun r => meeting_day (r_date r)) (rows weekly_store)
     = [Some (2024, 3, 5)]
  /\ normalize_date_prefix (U "2024年3月5日") = Some (U "2024-03-05")
  /\ build_clauses [] (U "2024年3月5日") [] [] [] []
     = [(Date, U "2024-03-05%")]
  /\ segmented_search_exact_six weekly_store [] (U "2024年3月5日") [] [] [] []
     = [].
Proof. repeat (split; [reflexivity|]). reflexivity. Qed.

(** The other half of C1 holds: the keyword "2024年3月" is not a complete
    date and the search runs as if no date keyword were given. *)
Lemma incomplete_date_keyword_dropped (db : store) (t l a tp c : pystr) :
  segmented_search_exact_six db t (U "2024年3月") l a tp c
  = segmented_search_exact_six db t [] l a tp c.
Proof. now apply rejected_date_keyword_dropped. Qed.

(** C4, at the input where the code departs from it.  The store holds
    the meeting of 1 October 2024 (id 1) and that of 5 March 2024 (id 2).
    A search without keywords lists March before October: the dates are
    compared as texts, and "2024年3" is larger than "2024年1". *)
Theorem search_lists_march_before_october :
  map (fun r => (id r, r_date r)) (rows two_meetings_store)
  = [(1, U "2024年10月1日"); (2, U "2024年3月5日")]
  /\ map (fun r => (id r, meeting_day (r_date r)))
         (segmented_search_exact_six two_meetings_store [] [] [] [] [] [])
     = [(2, Some (2024, 3, 5)); (1, Some (2024, 10, 1))]
  /\ recent_first
       (segmented_search_exact_six two_meetings_store [] [] [] [] [] [])
     = false.
Proof. repeat (split; [reflexivity|]). reflexivity. Qed.


(* ================================================================== *)
(** ** The table under insert, update and delete *)

Section StoreInvariant.

Lemma fold_max_ge (l : list N) (a : N) :
  a <= fold_left N.max l a /\ Forall (fun x => x <= fold_left N.max l a) l.
Proof.
  revert a. induction l as [|x l IH]; intros a; simpl.
  - split; [lia|constructor].
  - destruct (IH (N.max a x)) as [H1 H2]. split; [lia|].
    constructor; [lia|exact H2].
Qed.

Lemma next_id_above (db : store) :
  last_id db < next_id db /\ Forall (fun r => id r < next_id db) (rows db).
Proof.
  unfold next_id.
  destruct (fold_max_ge (map id (rows db)) (last_id db)) as [H1 H2].
  split; [lia|]. rewrite Forall_map in H2.
  eapply Forall_impl; [|exact H2]. simpl. intros r Hr. lia.
Qed.

Lemma has_key_false (rec : meeting) (db : store) :
  has_key (title rec) (date rec) db = false ->
  ~ In (title rec, date rec) (map row_key (rows db)).
Proof.
  intros H Hin. apply in_map_iff in Hin as (r & Hk & Hr).
  unfold row_key in Hk. injection Hk as H1 H2.
  assert (E : has_key (title rec) (date rec) db = true)
    by (apply has_key_true; eauto).
  congruence.
Qed.

Lemma NoDup_snoc {A : Type} (l : list A) (x : A) :
  NoDup l -> ~ In x l -> NoDup (l ++ [x]).
Proof.
  intros Hl Hx. induction Hl as [|y l Hy _ IH]; simpl.
  - constructor; [intros []|constructor].
  - constructor.
    + rewrite in_app_iff. intros [H|[H|[]]]; [now apply Hy|].
      subst. apply Hx. now left.
    + apply IH. intros H. apply Hx. now right.
Qed.

(** Rows that differ under [key] still do after some of them are gone. *)
Lemma distinct_after_filter {K : Type} (key : row -> K) (keep : row -> bool)
      (rs : list row) :
  NoDup (map key rs) -> NoDup (map key (filter keep rs)).
Proof.
  intros Hnd. induction rs as [|r rs IH]; [exact Hnd|].
  apply NoDup_cons_iff in Hnd as [Hr Hrs]. specialize (IH Hrs).
  cbn [filter]. destruct (keep r); [|exact IH].
  cbn [map]. apply NoDup_cons; [|exact IH].
  intros Hin. apply Hr.
  apply in_map_iff in Hin as (x & Hx & Hin).
  apply filter_In in Hin as [Hin _]. apply in_map_iff. now exists x.
Qed.

Lemma insert_keeps_ok (eng : engine) (db : store) (rec : meeting) :
  store_ok db -> store_ok (fst (insert_meeting eng db rec)).
Proof.
  intros (Hid & Hkey & Hle). unfold insert_meeting.
  destruct eng as [|e]; [|now repeat split].
  destruct (has_key (title rec) (date rec) db) eqn:E; [now repeat split|].
  destruct (next_id_above db) as [Hlast Hrows].
  unfold store_ok. simpl. rewrite !map_app. simpl. repeat split.
  - apply NoDup_snoc; [exact Hid|].
    intros Hin. apply in_map_iff in Hin as (r & Hr & Hin).
    rewrite Forall_forall in Hrows. specialize (Hrows r Hin). lia.
  - apply NoDup_snoc; [exact Hkey|]. now apply has_key_false.
  - apply Forall_app. split.
    + eapply Forall_impl; [|exact Hrows]. simpl. intros r Hr. lia.
    + constructor; [simpl; lia|constructor].
Qed.

Lemma delete_keeps_ok (eng : engine) (db : store) (rec_id : N) :
  store_ok db -> store_ok (fst (delete_meeting eng db rec_id)).
Proof.
  intros (Hid & Hkey & Hle). unfold delete_meeting.
  destruct eng as [|e]; [|now repeat split].
  unfold store_ok. simpl. repeat split.
  - now apply distinct_after_filter.
  - now apply distinct_after_filter.
  - rewrite Forall_forall in *. intros r Hr.
    apply filter_In in Hr as [Hr _]. now apply Hle.
Qed.

Lemma map_replace_absent (i : N) (new : row) (l : list row) :
  ~ In i (map id l) ->
  map (fun r => if id r =? i then new else r) l = l.
Proof.
  induction l as [|r l IH]; simpl; intros H; [reflexivity|].
  destruct (id r =? i) eqn:E.
  - apply N.eqb_eq in E. exfalso. apply H. now left.
  - f_equal. apply IH. intros Hin. apply H. now right.
Qed.

Lemma map_replace_ids (i : N) (rec : meeting) (l : list row) :
  map id (map (fun r => if id r =? i then row_of i rec else r) l) = map id l.
Proof.
  induction l as [|r l IH]; simpl; [reflexivity|].
  rewrite IH. destruct (id r =? i) eqn:E; [|reflexivity].
  apply N.eqb_eq in E. simpl. now rewrite E.
Qed.

Lemma same_key_iff (rec : meeting) (r : row) :
  same_key rec r = true <-> row_key r = (title rec, date rec).
Proof.
  unfold same_key, row_key. rewrite andb_true_iff, !str_eqb_eq.
  split; [intros [-> ->]; reflexivity|intros [= -> ->]; now split].
Qed.

(** Replacing the row of id [i] by one whose key no other row has keeps
    the keys distinct. *)
Lemma map_replace_keys (i : N) (rec : meeting) (l : list row) :
  NoDup (map id l) -> NoDup (map row_key l) ->
  (forall r, In r l -> id r <> i -> row_key r <> (title rec, date rec)) ->
  NoDup (map row_key (map (fun r => if id r =? i then row_of i rec else r) l)).
Proof.
  induction l as [|r l IH]; simpl; intros Hid Hkey Hfree; [constructor|].
  inversion Hid as [|? ? Hr Hid']; subst.
  inversion Hkey as [|? ? Hk Hkey']; subst.
  destruct (id r =? i) eqn:E.
  - apply N.eqb_eq in E. subst i.
    rewrite map_replace_absent by exact Hr.
    constructor; [|exact Hkey'].
    intros Hin. apply in_map_iff in Hin as (x & Hx & Hin).
    apply (Hfree x); [now right| |exact Hx].
    intros Heq. apply Hr. apply in_map_iff. eauto.
  - apply N.eqb_neq in E. constructor.
    + intros Hin. apply in_map_iff in Hin as (x & Hx & Hin).
      apply in_map_iff in Hin as (y & Hy & Hin).
      destruct (id y =? i) eqn:Ey; subst x.
      * apply (Hfree r); [now left|exact E|]. now rewrite <- Hx.
      * apply Hk. apply in_map_iff. eauto.
    + apply IH; try assumption.
      intros x Hx. apply Hfree. now right.
Qed.

Lemma update_keeps_ok (eng : engine) (db : store) (rec_id : N) (rec : meeting) :
  store_ok db -> store_ok (fst (update_meeting eng db rec_id rec)).
Proof.
  intros Hok. pose proof Hok as (Hid & Hkey & Hle). unfold update_meeting.
  destruct eng as [|e]; [|exact Hok].
  destruct (existsb (fun r => id r =? rec_id) (rows db)) eqn:E1; simpl andb.
  - destruct (existsb (fun r => negb (id r =? rec_id) && same_key rec r)
                     (rows db)) eqn:E2; [exact Hok|].
    unfold store_ok. simpl. rewrite map_replace_ids. repeat split.
    + exact Hid.
    + apply map_replace_keys; try assumption.
      intros r Hr Hne Hk.
      assert (existsb (fun r => negb (id r =? rec_id) && same_key rec r)
                      (rows db) = true); [|congruence].
      apply existsb_exists. exists r. split; [exact Hr|].
      apply andb_true_iff. split.
      * apply negb_true_iff. now apply N.eqb_neq.
      * now apply same_key_iff.
    + rewrite Forall_forall in *. intros x Hx.
      apply in_map_iff in Hx as (y & Hy & Hin).
      destruct (id y =? rec_id) eqn:Ey; subst x; [|now apply Hle].
      apply N.eqb_eq in Ey. simpl. rewrite <- Ey. now apply Hle.
  - assert (Habs : ~ In rec_id (map id (rows db))).
    { intros Hin. apply in_map_iff in Hin as (r & Hr & Hin).
      assert (existsb (fun r => id r =? rec_id) (rows db) = true);
        [|congruence].
      apply existsb_exists. exists r. split; [exact Hin|].
      now apply N.eqb_eq. }
    unfold store_ok. simpl. rewrite map_replace_absent by exact Habs.
    now repeat split.
Qed.

End StoreInvariant.

Section StoreLookup.

Lemma find_app_new {A : Type} (p : A -> bool) (l : list A) (x : A) :
  (forall y, In y l -> p y = false) -> p x = true ->
  find p (l ++ [x]) = Some x.
Proof.
  intros Hl Hx. induction l as [|y l IH]; simpl.
  - now rewrite Hx.
  - rewrite (Hl y (or_introl eq_refl)). apply IH.
    intros z Hz. apply Hl. now right.
Qed.

Lemma key_test_iff (t d : pystr) (r : row) :
  str_eqb (r_title r) t && str_eqb (r_date r) d = true <-> row_key r = (t, d).
Proof.
  unfold row_key. rewrite andb_true_iff, !str_eqb_eq.
  split; [intros [-> ->]; reflexivity|intros [= -> ->]; now split].
Qed.

Lemma key_test_false (t d : pystr) (r : row) :
  row_key r <> (t, d) -> str_eqb (r_title r) t && str_eqb (r_date r) d = false.
Proof.
  intros H. destruct (_ && _) eqn:E; [|reflexivity].
  apply key_test_iff in E. contradiction.
Qed.

Lemma has_key_absent (rec : meeting) (db : store) :
  (forall r, In r (rows db) -> row_key r <> (title rec, date rec)) ->
  has_key (title rec) (date rec) db = false.
Proof.
  intros H. destruct (has_key _ _ db) eqn:E; [|reflexivity].
  apply has_key_true in E as (r & Hr & H1 & H2).
  exfalso. apply (H r Hr). unfold row_key. now rewrite H1, H2.
Qed.

(** In a table with distinct keys the first row found for a key is the
    only one. *)
Lemma find_by_key (t d : pystr) (l : list row) (r : row) :
  NoDup (map row_key l) -> In r l -> row_key r = (t, d) ->
  find (fun x => str_eqb (r_title x) t && str_eqb (r_date x) d) l = Some r.
Proof.
  induction l as [|x l IH]; simpl; intros Hnd Hin Hk; [contradiction|].
  inversion Hnd as [|? ? Hx Hl]; subst.
  destruct Hin as [->|Hin].
  - now rewrite (proj2 (key_test_iff t d r) Hk).
  - rewrite key_test_false; [now apply IH|].
    intros Hxk. apply Hx. rewrite Hxk, <- Hk. apply in_map_iff. eauto.
Qed.

Lemma insert_fresh_eq (db : store) (rec : meeting) :
  (forall r, In r (rows db) -> row_key r <> (title rec, date rec)) ->
  insert_meeting Runs db rec
  = ({| rows := rows db ++ [row_of (next_id db) rec]; last_id := next_id db |},
     (true, None)).
Proof.
  intros H. unfold insert_meeting. now rewrite (has_key_absent rec db H).
Qed.

Lemma lookup_none (db : store) (t d : pystr) :
  (forall r, In r (rows db) -> row_key r <> (t, d)) ->
  get_id_by_title_date db t d = None.
Proof.
  intros H. unfold get_id_by_title_date.
  destruct (find _ (rows db)) as [r|] eqn:E; [|reflexivity].
  apply find_some in E as [Hr Hk]. apply key_test_iff in Hk.
  destruct (H r Hr Hk).
Qed.

End StoreLookup.

(** X1.  The three writing operations keep the promises of the schema:
    from a table with distinct ids, distinct (title, date) pairs and no
    id above the AUTOINCREMENT counter they lead to such a table again,
    whatever the record, the identity and the behaviour of the engine. *)
Theorem writes_keep_store_ok (eng : engine) (db : store) (rec : meeting) (i : N) :
  store_ok db ->
  store_ok (fst (insert_meeting eng db rec))
  /\ store_ok (fst (update_meeting eng db i rec))
  /\ store_ok (fst (delete_meeting eng db i)).
Proof.
  intros H. split; [now apply insert_keeps_ok|].
  split; [now apply update_keeps_ok|now apply delete_keeps_ok].
Qed.

Lemma writes_keep_store_ok_witness :
  store_ok empty_store
  /\ store_ok (fst (insert_meeting Runs empty_store same_key_rec))
  /\ store_ok (fst (update_meeting Runs empty_store 1 same_key_rec))
  /\ store_ok (fst (delete_meeting Runs empty_store 1)).
Proof.
  assert (H : store_ok empty_store) by (repeat split; constructor).
  split; [exact H|].
  exact (writes_keep_store_ok Runs empty_store same_key_rec 1 H).
Defined.

(** X2.  Inserting a record whose (title, date) no row has succeeds: the
    table gains exactly one row, at its end, holding the fields of the
    record under an id larger than the counter and than every id in the
    table; and looking the pair up afterwards returns that id. *)
Theorem insert_then_lookup (db : store) (rec : meeting) :
  (forall r, In r (rows db) -> row_key r <> (title rec, date rec)) ->
  insert_meeting Runs db rec
  = ({| rows := rows db ++ [row_of (next_id db) rec]; last_id := next_id db |},
     (true, None))
  /\ get_id_by_title_date (fst (insert_meeting Runs db rec)) (title rec) (date rec)
     = Some (next_id db)
  /\ last_id db < next_id db
  /\ Forall (fun r => id r < next_id db) (rows db).
Proof.
  intros H. pose proof (insert_fresh_eq db rec H) as Eins.
  split; [exact Eins|]. split; [|apply next_id_above].
  rewrite Eins. unfold get_id_by_title_date. simpl.
  rewrite find_app_new; [reflexivity| |].
  - intros r Hr. apply key_test_false. now apply H.
  - simpl. now rewrite !str_eqb_refl.
Qed.

Lemma insert_then_lookup_witness :
  (forall r, In r (rows empty_store)
             -> row_key r <> (title same_key_rec, date same_key_rec))
  /\ get_id_by_title_date (fst (insert_meeting Runs empty_store same_key_rec))
                          (U "周例会") (U "2024年3月5日") = Some 1.
Proof.
  assert (H : forall r, In r (rows empty_store)
                        -> row_key r <> (title same_key_rec, date same_key_rec))
    by (intros r []).
  split; [exact H|].
  exact (proj1 (proj2 (insert_then_lookup empty_store same_key_rec H))).
Defined.

(** X3.  The lookup by (title, date) answers [None] exactly when no row
    has the pair; in a table with distinct pairs it answers the id of the
    row that has the pair. *)
Theorem get_id_by_title_date_spec (db : store) (t d : pystr) :
  store_ok db ->
  (get_id_by_title_date db t d = None
   <-> forall r, In r (rows db) -> row_key r <> (t, d))
  /\ (forall i, get_id_by_title_date db t d = Some i
                <-> exists r, In r (rows db) /\ id r = i /\ row_key r = (t, d)).
Proof.
  intros (_ & Hkey & _). unfold get_id_by_title_date. split.
  - split.
    + intros H r Hr Hk.
      rewrite (find_by_key t d (rows db) r Hkey Hr Hk) in H. discriminate.
    + apply lookup_none.
  - intros i. split.
    + destruct (find _ (rows db)) as [r|] eqn:E; [|discriminate].
      intros [= <-]. apply find_some in E as [Hr Hk].
      apply key_test_iff in Hk. eauto.
    + intros (r & Hr & <- & Hk).
      now rewrite (find_by_key t d (rows db) r Hkey Hr Hk).
Qed.

Lemma get_id_by_title_date_spec_witness :
  store_ok two_meetings_store
  /\ get_id_by_title_date two_meetings_store (U "周例会") (U "2024年3月5日") = Some 2
  /\ get_id_by_title_date two_meetings_store (U "周例会") (U "2024-03-05") = None.
Proof.
  assert (H : store_ok two_meetings_store).
  { repeat split.
    - repeat (constructor; [simpl; intuition discriminate|]). constructor.
    - repeat (constructor; [simpl; intuition discriminate|]). constructor.
    - repeat (constructor; [discriminate|]). constructor. }
  split; [exact H|].
  destruct (get_id_by_title_date_spec two_meetings_store
              (U "周例会") (U "2024年3月5日") H) as [_ H2].
  destruct (get_id_by_title_date_spec two_meetings_store
              (U "周例会") (U "2024-03-05") H) as [H1 _].
  split.
  - apply H2. eexists. split; [right; left; reflexivity|]. split; reflexivity.
  - apply H1. intros r [<-|[<-|[]]]; discriminate.
Defined.

Section StoreWrites.

(** In a list of rows that differ under [key], a key names one row. *)
Lemma same_key_same_row {K : Type} (key : row -> K) (rs : list row) (a b : row) :
  NoDup (map key rs) -> In a rs -> In b rs -> key a = key b -> a = b.
Proof.
  intros Hnd Ha Hb Hk. induction rs as [|r rs IH]; [destruct Ha|].
  apply NoDup_cons_iff in Hnd as [Hr Hrs].
  destruct Ha as [Ha|Ha], Hb as [Hb|Hb].
  - congruence.
  - subst r. destruct Hr. rewrite Hk. now apply in_map.
  - subst r. destruct Hr. rewrite <- Hk. now apply in_map.
  - now apply IH.
Qed.

Lemma delete_rows (db : store) (i : N) (r : row) :
  In r (rows (fst (delete_meeting Runs db i))) <-> In r (rows db) /\ id r <> i.
Proof.
  simpl. rewrite filter_In, negb_true_iff, N.eqb_neq. reflexivity.
Qed.

Lemma update_rows (db : store) (i : N) (rec : meeting) (r : row) :
  In i (map id (rows db)) ->
  In r (map (fun x => if id x =? i then row_of i rec else x) (rows db))
  <-> r = row_of i rec \/ (In r (rows db) /\ id r <> i).
Proof.
  intros Hi. rewrite in_map_iff. split.
  - intros (x & Hx & Hin). destruct (id x =? i) eqn:E; subst r.
    + now left.
    + right. split; [exact Hin|now apply N.eqb_neq].
  - intros [->|[Hin Hne]].
    + apply in_map_iff in Hi as (x & Hx & Hin). exists x.
      split; [|exact Hin]. apply N.eqb_eq in Hx. now rewrite Hx.
    + exists r. split; [|exact Hin]. apply N.eqb_neq in Hne. now rewrite Hne.
Qed.

End StoreWrites.

(** X4.  A delete removes the rows of the given id and nothing else,
    leaves the counter as it is, and changes nothing when repeated; in a
    table that keeps the schema's promises the title and date of a
    removed row can no longer be looked up. *)
Theorem delete_removes_only_that_row (db : store) (i : N) :
  store_ok db ->
  (forall r, In r (rows (fst (delete_meeting Runs db i)))
             <-> In r (rows db) /\ id r <> i)
  /\ last_id (fst (delete_meeting Runs db i)) = last_id db
  /\ delete_meeting Runs (fst (delete_meeting Runs db i)) i
     = (fst (delete_meeting Runs db i), (true, None))
  /\ (forall r, In r (rows db) -> id r = i ->
                get_id_by_title_date (fst (delete_meeting Runs db i))
                                     (r_title r) (r_date r) = None).
Proof.
  intros Hok. pose proof Hok as (_ & Hkey & _).
  split; [intros r; apply delete_rows|]. split; [reflexivity|]. split.
  - unfold delete_meeting at 1. cbn [fst rows last_id]. f_equal.
    simpl. f_equal. apply filter_keeps_all.
    intros r Hr. now apply filter_In in Hr as [_ Hr].
  - intros r Hr Hi.
    apply lookup_none. intros x Hx Hk. apply delete_rows in Hx as [Hx Hne].
    apply Hne. rewrite <- Hi. f_equal.
    exact (same_key_same_row row_key (rows db) x r Hkey Hx Hr Hk).
Qed.

Lemma delete_removes_only_that_row_witness :
  store_ok weekly_store
  /\ rows (fst (delete_meeting Runs weekly_store 1)) = []
  /\ get_id_by_title_date (fst (delete_meeting Runs weekly_store 1))
                          (U "周例会") (U "2024年3月5日") = None.
Proof.
  assert (H : store_ok weekly_store).
  { repeat split.
    - repeat (constructor; [simpl; intuition discriminate|]). constructor.
    - repeat (constructor; [simpl; intuition discriminate|]). constructor.
    - repeat (constructor; [discriminate|]). constructor. }
  split; [exact H|]. split; [reflexivity|].
  destruct (delete_removes_only_that_row weekly_store 1 H) as (_ & _ & _ & H4).
  eapply (H4 _ (or_introl eq_refl)). reflexivity.
Defined.

(** X5.  Ids are not used again: after a row is deleted, a record with
    its title and date can be inserted anew, and the new row gets an id
    larger than the one of the deleted row. *)
Theorem reinsert_after_delete_gets_new_id (db : store) (r : row) (rec : meeting) :
  store_ok db -> In r (rows db) -> row_key r = (title rec, date rec) ->
  insert_meeting Runs (fst (delete_meeting Runs db (id r))) rec
  = ({| rows := rows (fst (delete_meeting Runs db (id r)))
                ++ [row_of (next_id (fst (delete_meeting Runs db (id r)))) rec];
        last_id := next_id (fst (delete_meeting Runs db (id r))) |},
     (true, None))
  /\ id r < next_id (fst (delete_meeting Runs db (id r))).
Proof.
  intros Hok Hr Hk. pose proof Hok as (_ & Hkey & Hle). split.
  - apply insert_fresh_eq.
    intros x Hx Hxk. apply delete_rows in Hx as [Hx Hne].
    apply Hne. f_equal.
    apply (same_key_same_row row_key (rows db) x r Hkey Hx Hr). congruence.
  - destruct (next_id_above (fst (delete_meeting Runs db (id r)))) as [H _].
    simpl last_id in H. rewrite Forall_forall in Hle.
    specialize (Hle r Hr). lia.
Qed.

Lemma reinsert_after_delete_gets_new_id_witness :
  store_ok two_meetings_store
  /\ map (fun r => (id r, r_title r))
         (rows (fst (insert_meeting Runs
                       (fst (delete_meeting Runs two_meetings_store 1))
                       {| title := U "十月例会"; date := U "2024年10月1日";
                          location := []; attendees := []; topic := [];
                          content := []; raw_text := [] |})))
     = [(2, U "周例会"); (3, U "十月例会")].
Proof.
  assert (H : store_ok two_meetings_store).
  { repeat split.
    - repeat (constructor; [simpl; intuition discriminate|]). constructor.
    - repeat (constructor; [simpl; intuition discriminate|]). constructor.
    - repeat (constructor; [discriminate|]). constructor. }
  split; [exact H|].
  pose proof (reinsert_after_delete_gets_new_id
                two_meetings_store (hd (row_of 0 same_key_rec)
                                       (rows two_meetings_store))
                {| title := U "十月例会"; date := U "2024年10月1日";
                   location := []; attendees := []; topic := [];
                   content := []; raw_text := [] |}
                H (or_introl eq_refl) eq_refl) as [E _].
  change (id (hd (row_of 0 same_key_rec) (rows two_meetings_store))) with 1 in E.
  rewrite E. reflexivity.
Defined.

(** X6.  An update for an identity that no row has changes nothing and
    still answers [(True, None)]: a missing row is not reported. *)
Theorem update_absent_is_silent (db : store) (i : N) (rec : meeting) :
  (forall r, In r (rows db) -> id r <> i) ->
  update_meeting Runs db i rec = (db, (true, None)).
Proof.
  intros H. unfold update_meeting.
  assert (E : existsb (fun r => id r =? i) (rows db) = false).
  { destruct (existsb _ (rows db)) eqn:E; [|reflexivity].
    apply existsb_exists in E as (r & Hr & Hi). apply N.eqb_eq in Hi.
    destruct (H r Hr Hi). }
  rewrite E. simpl andb. cbv iota. rewrite map_replace_absent.
  - now destruct db.
  - intros Hin. apply in_map_iff in Hin as (r & Hi & Hr). exact (H r Hr Hi).
Qed.

Lemma update_absent_is_silent_witness :
  (forall r, In r (rows weekly_store) -> id r <> 7)
  /\ update_meeting Runs weekly_store 7 same_key_rec
     = (weekly_store, (true, None)).
Proof.
  assert (H : forall r, In r (rows weekly_store) -> id r <> 7).
  { intros r [<-|[]]. discriminate. }
  split; [exact H|].
  exact (update_absent_is_silent weekly_store 7 same_key_rec H).
Defined.

(** X7.  An update that would give a row the title and date of another
    row is refused with the duplicate message of the update, which no
    other failure of an update carries, and the table stays as it was. *)
Theorem update_conflict_reported (db : store) (i : N) (rec : meeting) (r0 r1 : row) :
  In r0 (rows db) -> id r0 = i ->
  In r1 (rows db) -> id r1 <> i -> row_key r1 = (title rec, date rec) ->
  update_meeting Runs db i rec = (db, (false, Some MSG_DUP_UPDATE))
  /\ forall e, snd (update_meeting (Raises e) db i rec)
               <> (false, Some MSG_DUP_UPDATE).
Proof.
  intros H0 Hi H1 Hne Hk. split.
  - unfold update_meeting.
    assert (E1 : existsb (fun r => id r =? i) (rows db) = true).
    { apply existsb_exists. exists r0. split; [exact H0|now apply N.eqb_eq]. }
    assert (E2 : existsb (fun r => negb (id r =? i) && same_key rec r)
                         (rows db) = true).
    { apply existsb_exists. exists r1. split; [exact H1|].
      apply andb_true_iff. split.
      - apply negb_true_iff. now apply N.eqb_neq.
      - now apply same_key_iff. }
    now rewrite E1, E2.
  - intros e F. simpl in F. discriminate F.
Qed.

Lemma update_conflict_reported_witness :
  update_meeting Runs two_meetings_store 1 same_key_rec
  = (two_meetings_store, (false, Some MSG_DUP_UPDATE)).
Proof.
  refine (proj1 (update_conflict_reported two_meetings_store 1 same_key_rec
                   (nth 0 (rows two_meetings_store) (row_of 0 same_key_rec))
                   (nth 1 (rows two_meetings_store) (row_of 0 same_key_rec))
                   _ _ _ _ _)).
  - left. reflexivity.
  - reflexivity.
  - right. left. reflexivity.
  - discriminate.
  - reflexivity.
Defined.

(** X8.  An update of an existing row whose new title and date no other
    row has succeeds (keeping the row's own title and date is allowed):
    the row keeps its id and its place and takes the fields of the
    record, every other row stays, and the new pair leads back to the
    same id. *)
Theorem update_replaces_row (db : store) (i : N) (rec : meeting) (r0 : row) :
  store_ok db -> In r0 (rows db) -> id r0 = i ->
  (forall r, In r (rows db) -> id r <> i -> row_key r <> (title rec, date rec)) ->
  snd (update_meeting Runs db i rec) = (true, None)
  /\ (forall r, In r (rows (fst (update_meeting Runs db i rec)))
                <-> r = row_of i rec \/ (In r (rows db) /\ id r <> i))
  /\ map id (rows (fst (update_meeting Runs db i rec))) = map id (rows db)
  /\ get_id_by_title_date (fst (update_meeting Runs db i rec))
                          (title rec) (date rec) = Some i.
Proof.
  intros Hok H0 Hi Hfree.
  pose proof (update_keeps_ok Runs db i rec Hok) as (_ & Hkey' & _).
  assert (Hin : In i (map id (rows db))) by (rewrite <- Hi; now apply in_map).
  assert (E2 : existsb (fun r => negb (id r =? i) && same_key rec r)
                       (rows db) = false).
  { destruct (existsb _ (rows db)) eqn:E; [|reflexivity].
    apply existsb_exists in E as (r & Hr & H).
    apply andb_true_iff in H as [Hne Hk].
    apply negb_true_iff, N.eqb_neq in Hne. apply same_key_iff in Hk.
    destruct (Hfree r Hr Hne Hk). }
  assert (E : update_meeting Runs db i rec
              = ({| rows := map (fun r => if id r =? i then row_of i rec else r)
                                (rows db);
                    last_id := last_id db |}, (true, None))).
  { unfold update_meeting. rewrite E2, andb_false_r. reflexivity. }
  rewrite E in *. simpl fst in *. simpl snd. simpl rows in *.
  split; [reflexivity|]. split; [intros r; now apply update_rows|].
  split; [apply map_replace_ids|].
  unfold get_id_by_title_date. simpl rows.
  rewrite (find_by_key (title rec) (date rec) _ (row_of i rec) Hkey').
  - reflexivity.
  - apply update_rows; [exact Hin|now left].
  - reflexivity.
Qed.

Lemma update_replaces_row_witness :
  store_ok weekly_store
  /\ map (fun r => (id r, r_title r, r_location r))
         (rows (fst (update_meeting Runs weekly_store 1 same_key_rec)))
     = [(1, U "周例会", U "二楼")]
  /\ get_id_by_title_date (fst (update_meeting Runs weekly_store 1 same_key_rec))
                          (U "周例会") (U "2024年3月5日") = Some 1.
Proof.
  assert (H : store_ok weekly_store).
  { repeat split.
    - repeat (constructor; [simpl; intuition discriminate|]). constructor.
    - repeat (constructor; [simpl; intuition discriminate|]). constructor.
    - repeat (constructor; [discriminate|]). constructor. }
  split; [exact H|]. split; [reflexivity|].
  refine (proj2 (proj2 (proj2
            (update_replaces_row weekly_store 1 same_key_rec
               (nth 0 (rows weekly_store) (row_of 0 same_key_rec))
               H (or_introl eq_refl) eq_refl _)))).
  intros r [<-|[]] Hne. now destruct Hne.
Defined.


(* ================================================================== *)
(** ** Numbers and their decimal texts *)

Section Decimal.

Lemma ascii_digit_value (c : char) :
  ascii_digit c -> decimal_value c = Some (c - 0x30).
Proof.
  unfold ascii_digit, decimal_value, decimal_runs. intros [H1 H2].
  assert (E : (0x30 <=? c) && (c <? 0x30 + 10) = true).
  { apply andb_true_iff. split; [apply N.leb_le|apply N.ltb_lt]; lia. }
  cbn [find]. now rewrite E.
Qed.

Lemma ascii_digit_decimal (c : char) : ascii_digit c -> isdecimal c = true.
Proof. intros H. unfold isdecimal. now rewrite ascii_digit_value. Qed.

Lemma ascii_digits_all (l : pystr) : Forall ascii_digit l -> all_digits l.
Proof.
  intros H. eapply Forall_impl; [|exact H]. apply ascii_digit_decimal.
Qed.

Lemma decimal_value_lt (c : char) (v : N) : decimal_value c = Some v -> v < 10.
Proof.
  unfold decimal_value.
  destruct (find _ decimal_runs) as [z|] eqn:E; [|discriminate].
  intros [= <-]. apply find_some in E as [_ E].
  apply andb_true_iff in E as [E1 E2].
  apply N.leb_le in E1. apply N.ltb_lt in E2. lia.
Qed.

Lemma digit_step_lt (a : N) (c : char) : digit_step a c < a * 10 + 10.
Proof.
  unfold digit_step. destruct (decimal_value c) as [v|] eqn:E; [|lia].
  apply decimal_value_lt in E. lia.
Qed.

Lemma int_of_digits_fold (s : pystr) : int_of_digits s = fold_left digit_step s 0.
Proof. reflexivity. Qed.

Lemma int_of_4_lt (y : pystr) : length y = 4%nat -> int_of_digits y < 10000.
Proof.
  destruct y as [|a [|b [|c [|d [|? ?]]]]]; try discriminate. intros _.
  rewrite int_of_digits_fold. simpl.
  pose proof (digit_step_lt 0 a).
  pose proof (digit_step_lt (digit_step 0 a) b).
  pose proof (digit_step_lt (digit_step (digit_step 0 a) b) c).
  pose proof (digit_step_lt (digit_step (digit_step (digit_step 0 a) b) c) d).
  lia.
Qed.

Lemma int_of_1_2_lt (m : pystr) : one_or_two m -> int_of_digits m < 100.
Proof.
  intros [H|H]; destruct m as [|a [|b [|? ?]]]; try discriminate;
    rewrite int_of_digits_fold; simpl.
  - pose proof (digit_step_lt 0 a). lia.
  - pose proof (digit_step_lt 0 a).
    pose proof (digit_step_lt (digit_step 0 a) b). lia.
Qed.

Lemma digits_from_S (f : nat) (n : N) (acc : pystr) :
  digits_from (S f) n acc
  = if n / 10 =? 0 then (0x30 + n mod 10) :: acc
    else digits_from f (n / 10) ((0x30 + n mod 10) :: acc).
Proof. reflexivity. Qed.

(** The digits written for [n], with enough fuel: they are ASCII digits,
    they read back as [n], and there are as many as [n] needs. *)
Lemma digits_from_spec (f : nat) (n : N) (acc : pystr) :
  n < 2 ^ N.of_nat (S f) ->
  exists ds,
    digits_from (S f) n acc = ds ++ acc
    /\ Forall ascii_digit ds
    /\ (forall a, fold_left digit_step ds a = a * 10 ^ N.of_nat (length ds) + n)
    /\ n < 10 ^ N.of_nat (length ds)
    /\ (forall k, length ds = S (S k) -> 10 ^ N.of_nat (S k) <= n).
Proof.
  revert n acc. induction f as [|f IH]; intros n acc Hn.
  - assert (Hlt : n < 10).
    { change (2 ^ N.of_nat 1) with 2 in Hn. lia. }
    assert (Hd : ascii_digit (0x30 + n)) by (unfold ascii_digit; lia).
    rewrite digits_from_S. rewrite (N.mod_small n 10) by exact Hlt.
    rewrite (N.div_small n 10) by exact Hlt. simpl N.eqb. cbv iota.
    exists [0x30 + n]. split; [reflexivity|].
    split; [constructor; [exact Hd|constructor]|]. split; [|split].
    + intros a. cbn [fold_left length]. unfold digit_step.
      rewrite (ascii_digit_value _ Hd).
      replace (0x30 + n - 0x30) with n by lia.
      change (10 ^ N.of_nat 1) with 10. lia.
    + cbn [length]. change (10 ^ N.of_nat 1) with 10. lia.
    + intros k Hk. discriminate Hk.
  - rewrite digits_from_S.
    assert (Hr : n mod 10 < 10) by (apply N.mod_upper_bound; discriminate).
    pose proof (N.div_mod' n 10) as Hdm.
    set (q := n / 10) in *. set (r := n mod 10) in *.
    assert (Hd : ascii_digit (0x30 + r)) by (unfold ascii_digit; lia).
    destruct (q =? 0) eqn:Eq.
    + apply N.eqb_eq in Eq.
      exists [0x30 + r]. split; [reflexivity|].
      split; [constructor; [exact Hd|constructor]|]. split; [|split].
      * intros a. cbn [fold_left length]. unfold digit_step.
        rewrite (ascii_digit_value _ Hd).
        replace (0x30 + r - 0x30) with r by lia.
        change (10 ^ N.of_nat 1) with 10. lia.
      * cbn [length]. change (10 ^ N.of_nat 1) with 10. lia.
      * intros k Hk. discriminate Hk.
    + apply N.eqb_neq in Eq.
      assert (Hq : q < 2 ^ N.of_nat (S f)).
      { rewrite (Nat2N.inj_succ (S f)), N.pow_succ_r' in Hn. lia. }
      destruct (IH q ((0x30 + r) :: acc) Hq) as (ds & E & Hds & Hval & Hup & Hlow).
      exists (ds ++ [0x30 + r]). rewrite E, <- app_assoc.
      split; [reflexivity|].
      split; [apply Forall_app; split;
              [exact Hds|constructor; [exact Hd|constructor]]|].
      rewrite length_app. simpl length.
      replace (length ds + 1)%nat with (S (length ds)) by lia.
      rewrite Nat2N.inj_succ, N.pow_succ_r'.
      split; [|split].
      * intros a. rewrite fold_left_app. cbn [fold_left]. rewrite Hval.
        unfold digit_step. rewrite (ascii_digit_value _ Hd).
        replace (0x30 + r - 0x30) with r by lia.
        generalize (10 ^ N.of_nat (length ds)). intros p. nia.
      * revert Hup. generalize (10 ^ N.of_nat (length ds)). intros p Hp. lia.
      * intros k Hk. injection Hk as Hk.
        destruct (length ds) as [|[|j]] eqn:El; try discriminate.
        -- injection Hk as <-. change (10 ^ N.of_nat 1) with 10. lia.
        -- injection Hk as <-.
           specialize (Hlow j eq_refl).
           rewrite (Nat2N.inj_succ (S j)), N.pow_succ_r'. lia.
Qed.

Lemma str_of_int_spec (n : N) :
  Forall ascii_digit (str_of_int n)
  /\ int_of_digits (str_of_int n) = n
  /\ n < 10 ^ N.of_nat (length (str_of_int n))
  /\ (forall k, length (str_of_int n) = S (S k) -> 10 ^ N.of_nat (S k) <= n).
Proof.
  unfold str_of_int.
  assert (Hn : n < 2 ^ N.of_nat (S (N.to_nat (N.log2 n)))).
  { rewrite Nat2N.inj_succ, N2Nat.id.
    destruct (N.eq_dec n 0) as [->|Hne]; [reflexivity|].
    apply N.log2_spec. lia. }
  destruct (digits_from_spec _ n [] Hn) as (ds & E & Hds & Hval & Hup & Hlow).
  rewrite E, app_nil_r. split; [exact Hds|]. split; [|split; assumption].
  rewrite int_of_digits_fold, Hval. lia.
Qed.

Lemma pow10_ge (j : nat) (b : N) : b <= 10 ^ N.of_nat j * b.
Proof.
  assert (1 <= 10 ^ N.of_nat j); [|nia].
  induction j as [|j IH]; [simpl; lia|].
  rewrite Nat2N.inj_succ, N.pow_succ_r'. lia.
Qed.

Lemma pow10_add (j k : nat) :
  10 ^ N.of_nat (j + k) = 10 ^ N.of_nat j * 10 ^ N.of_nat k.
Proof. rewrite Nat2N.inj_add. apply N.pow_add_r. Qed.

(** A year from 1000 to 9999 is written with four digits. *)
Lemma str_of_int_len4 (n : N) :
  1000 <= n < 10000 -> length (str_of_int n) = 4%nat.
Proof.
  intros [Hlo Hhi]. destruct (str_of_int_spec n) as (_ & _ & Hup & Hlow).
  destruct (length (str_of_int n)) as [|[|[|[|[|j]]]]] eqn:E;
    try reflexivity; exfalso.
  - simpl in Hup. lia.
  - change (10 ^ N.of_nat 1) with 10 in Hup. lia.
  - change (10 ^ N.of_nat 2) with 100 in Hup. lia.
  - change (10 ^ N.of_nat 3) with 1000 in Hup. lia.
  - specialize (Hlow (S (S (S j))) eq_refl).
    change (S (S (S (S j)))) with (4 + j)%nat in Hlow.
    rewrite pow10_add in Hlow. change (10 ^ N.of_nat 4) with 10000 in Hlow.
    pose proof (pow10_ge j 10000). lia.
Qed.

(** A number below 1000 is written with at most three digits. *)
Lemma str_of_int_len_lt4 (n : N) : n < 1000 -> (length (str_of_int n) < 4)%nat.
Proof.
  intros Hhi. destruct (str_of_int_spec n) as (_ & _ & _ & Hlow).
  destruct (length (str_of_int n)) as [|[|[|[|j]]]] eqn:E; try lia.
  exfalso. specialize (Hlow (S (S j)) eq_refl).
  change (S (S (S j))) with (3 + j)%nat in Hlow.
  rewrite pow10_add in Hlow. change (10 ^ N.of_nat 3) with 1000 in Hlow.
  pose proof (pow10_ge j 1000). lia.
Qed.

(** A number below 100 is written with one or two digits. *)
Lemma str_of_int_len_1_2 (n : N) : n < 100 -> one_or_two (str_of_int n).
Proof.
  intros Hhi. destruct (str_of_int_spec n) as (_ & _ & Hup & Hlow).
  unfold one_or_two.
  destruct (length (str_of_int n)) as [|[|[|j]]] eqn:E; auto; exfalso.
  - apply length_zero_iff_nil in E. now apply (proj2 (str_of_int_shape n)).
  - specialize (Hlow (S j) eq_refl).
    change (S (S j)) with (2 + j)%nat in Hlow.
    rewrite pow10_add in Hlow. change (10 ^ N.of_nat 2) with 100 in Hlow.
    pose proof (pow10_ge j 100). lia.
Qed.

End Decimal.

(* ================================================================== *)
(** ** The date functions on their own results *)

Section DateAgain.

Lemma strip_idem (s : pystr) : strip (strip s) = strip s.
Proof.
  unfold strip at 1. rewrite lstrip_strip. unfold strip.
  apply rstrip_idem.
Qed.

Lemma strip_space_cons (t : pystr) : strip (CH_SPACE :: t) = strip t.
Proof. reflexivity. Qed.

Lemma suffix_part_idem (r : pystr) : suffix_part (suffix_part r) = suffix_part r.
Proof.
  destruct (truthy (strip r)) eqn:E.
  - assert (H : suffix_part r = CH_SPACE :: strip r)
      by (unfold suffix_part; now rewrite E).
    rewrite H. unfold suffix_part.
    now rewrite strip_space_cons, strip_idem, E.
  - assert (H : suffix_part r = []) by (unfold suffix_part; now rewrite E).
    rewrite H. reflexivity.
Qed.

Lemma rstrip_all_space (ws : pystr) : forallb isspace ws = true -> rstrip ws = [].
Proof.
  intros H. unfold rstrip. rewrite lstrip_all_space; [reflexivity|].
  rewrite forallb_forall in *. intros x Hx. apply H. now apply in_rev.
Qed.

Lemma rstrip_suffix_part (r : pystr) : rstrip (suffix_part r) = suffix_part r.
Proof.
  unfold suffix_part. destruct (truthy (strip r)) eqn:E; [|reflexivity].
  rewrite rstrip_cons_space by reflexivity.
  assert (Er : rstrip (strip r) = strip r) by (unfold strip; apply rstrip_idem).
  rewrite Er. now destruct (strip r).
Qed.

Lemma date_part_text (y m d : N) (r : pystr) :
  date_part y m d ++ r
  = str_of_int y ++ CH_YEAR :: str_of_int m ++ CH_MONTH :: str_of_int d
    ++ opt_char (Some CH_DAY) ++ r.
Proof.
  unfold date_part. repeat (rewrite <- app_assoc; simpl). reflexivity.
Qed.

(** The text written for a date is stripped. *)
Lemma rendered_is_stripped (y m d : N) (r : pystr) :
  strip (date_part y m d ++ suffix_part r) = date_part y m d ++ suffix_part r.
Proof.
  destruct (str_of_int_shape y) as [Hy Hne].
  rewrite date_part_text. unfold strip.
  destruct (str_of_int y) as [|c ys] eqn:E; [contradiction|].
  inversion Hy as [|? ? Hc _]; subst.
  simpl app at 1.
  rewrite lstrip_nonspace
    by (apply digit_not_space; now apply ascii_digit_decimal).
  replace (c :: ys ++ CH_YEAR :: str_of_int m ++ CH_MONTH :: str_of_int d
             ++ CH_DAY :: suffix_part r)
    with ((c :: ys ++ CH_YEAR :: str_of_int m ++ CH_MONTH :: str_of_int d)
            ++ CH_DAY :: suffix_part r)
    by (simpl; repeat (rewrite <- app_assoc; simpl); reflexivity).
  rewrite rstrip_after_nonspace by reflexivity.
  rewrite rstrip_suffix_part.
  simpl. repeat (rewrite <- app_assoc; simpl). reflexivity.
Qed.

(** The text written for a date with a year from 1000 on begins with a
    date in the Chinese form, whose groups are the written numbers. *)
Lemma rendered_is_date (y m d : N) (r : pystr) :
  1000 <= y < 10000 -> m < 100 -> d < 100 ->
  date_prefix (date_part y m d ++ r) (str_of_int y) (str_of_int m)
              (str_of_int d) r.
Proof.
  intros Hy Hm Hd. left. constructor.
  - apply date_part_text.
  - split; [now apply str_of_int_len4|].
    apply ascii_digits_all, str_of_int_spec.
  - split; [now apply str_of_int_len_1_2|].
    apply ascii_digits_all, str_of_int_spec.
  - split; [now apply str_of_int_len_1_2|].
    apply ascii_digits_all, str_of_int_spec.
  - discriminate.
Qed.

Lemma digits_exact_short (n : nat) (ds : pystr) (c : char) (r : pystr) :
  all_digits ds -> (length ds < n)%nat -> isdecimal c = false ->
  digits_exact n (ds ++ c :: r) = None.
Proof.
  revert n. induction ds as [|x ds IH]; intros n Hd Hl Hc.
  - destruct n as [|n]; [inversion Hl|]. simpl. now rewrite Hc.
  - destruct n as [|n]; [inversion Hl|].
    inversion Hd as [|? ? Hx Hd']; subst. simpl. rewrite Hx.
    rewrite IH; [reflexivity|exact Hd'|simpl in Hl; lia|exact Hc].
Qed.

(** The text written for a date with a year below 1000 is no date for
    the normalizer any more. *)
Lemma rendered_short_year (y m d : N) (r : pystr) :
  y < 1000 -> normalize_datetime (date_part y m d ++ suffix_part r) = None.
Proof.
  intros Hy. unfold normalize_datetime. rewrite rendered_is_stripped.
  destruct (str_of_int_shape y) as [Hd Hne].
  assert (E : forall re, re_match re (date_part y m d ++ suffix_part r) = None).
  { intros re. unfold re_match. rewrite date_part_text.
    destruct (str_of_int y) as [|c ys] eqn:Ey; [contradiction|].
    simpl app at 1.
    rewrite lstrip_nonspace
      by (apply digit_not_space, ascii_digit_decimal; now inversion Hd).
    change (c :: ys ++ CH_YEAR :: ?t) with ((c :: ys) ++ CH_YEAR :: t).
    rewrite <- Ey. rewrite digits_exact_short; [reflexivity| | |reflexivity].
    - now apply ascii_digits_all, str_of_int_spec.
    - now apply str_of_int_len_lt4. }
  now rewrite !E.
Qed.

Lemma full_match_inv (re : date_re) (s : pystr) (mt : date_match) :
  to_end re = true -> re_match re s = Some mt ->
  exists rest,
    re_match (prefix_of re) s
    = Some {| grp_y := grp_y mt; grp_m := grp_m mt; grp_d := grp_d mt;
              after := rest |}
    /\ forallb isspace rest = true.
Proof.
  intros Hend H. rewrite re_match_full in H by exact Hend.
  destruct (re_match (prefix_of re) s) as [[y m d rest]|]; [|discriminate].
  simpl in H. destruct (forallb isspace rest) eqn:E; [|discriminate].
  inversion H; subst; simpl. now exists rest.
Qed.


(** A stripped text does not end with white space. *)
Lemma stripped_no_space_tail (s a ws : pystr) (c : char) :
  strip s = a ++ c :: ws -> isspace c = false ->
  forallb isspace ws = true -> ws = [].
Proof.
  intros E Hc Hws.
  assert (Er : rstrip (strip s) = strip s) by (unfold strip; apply rstrip_idem).
  rewrite E, rstrip_after_nonspace, rstrip_all_space in Er by assumption.
  apply app_inv_head in Er. now injection Er.
Qed.

End DateAgain.

(** X9.  Normalizing a date twice.  The text the normalizer returns is
    stripped; when the year is 1000 or more the normalizer accepts its own
    result and returns it unchanged; when the year is below 1000 (written
    with leading zeros in the input) the result has fewer than four year
    digits and the normalizer rejects it. *)
Theorem normalize_datetime_twice (s y m d rest : pystr) :
  date_prefix (strip s) y m d rest ->
  exists out,
    normalize_datetime s = Some out
    /\ strip out = out
    /\ (1000 <= int_of_digits y -> normalize_datetime out = Some out)
    /\ (int_of_digits y < 1000 -> normalize_datetime out = None).
Proof.
  intros H. pose proof (normalize_datetime_some _ _ _ _ _ H) as E.
  destruct H as [H|H]; destruct H as [_ [Hy _] [Hm _] [Hd _] _];
    pose proof (int_of_4_lt y Hy) as By;
    pose proof (int_of_1_2_lt m Hm) as Bm;
    pose proof (int_of_1_2_lt d Hd) as Bd;
    (eexists; split; [exact E|]; split; [apply rendered_is_stripped|]; split;
     [intros Hlo|intros Hhi; now apply rendered_short_year]);
    rewrite (normalize_datetime_at_position_0 _ _ _ _ _
               (rendered_is_date _ _ _ (suffix_part rest)
                                 (conj Hlo By) Bm Bd));
    destruct (str_of_int_spec (int_of_digits y)) as (_ & -> & _);
    destruct (str_of_int_spec (int_of_digits m)) as (_ & -> & _);
    destruct (str_of_int_spec (int_of_digits d)) as (_ & -> & _);
    now rewrite suffix_part_idem.
Qed.

Lemma normalize_datetime_twice_witness :
  (date_prefix (strip (U "2024-03-05 下午3点")) (U "2024") (U "03") (U "05")
               (U " 下午3点")
   /\ normalize_datetime (U "2024年3月5日 下午3点") = Some (U "2024年3月5日 下午3点"))
  /\ (date_prefix (strip (U "0999-1-1")) (U "0999") (U "1") (U "1") []
      /\ normalize_datetime (U "0999-1-1") = Some (U "999年1月1日")
      /\ normalize_datetime (U "999年1月1日") = None).
Proof.
  assert (H1 : date_prefix (strip (U "2024-03-05 下午3点"))
                           (U "2024") (U "03") (U "05") (U " 下午3点"))
    by (right; date_form_by_computation).
  assert (H2 : date_prefix (strip (U "0999-1-1")) (U "0999") (U "1") (U "1") [])
    by (right; date_form_by_computation).
  split; split; [exact H1| |exact H2|].
  - destruct (normalize_datetime_twice _ _ _ _ _ H1) as (out & E & _ & Hre & _).
    assert (Eo : out = U "2024年3月5日 下午3点")
      by (vm_compute in E; now injection E).
    rewrite <- Eo. apply Hre. vm_compute. discriminate.
  - destruct (normalize_datetime_twice _ _ _ _ _ H2) as (out & E & _ & _ & Hno).
    assert (Eo : out = U "999年1月1日") by (vm_compute in E; now injection E).
    split; [reflexivity|]. rewrite <- Eo. apply Hno. reflexivity.
Defined.



Section StrictDate.

Lemma strict_accept_inv (s : pystr) :
  normalize_date_prefix s <> None ->
  exists y m d,
    date_prefix (strip s) y m d []
    /\ datetime (int_of_digits y) (int_of_digits m) (int_of_digits d) <> None.
Proof.
  intros H.
  assert (Hs : forall re mt,
             (re = DATE_RE_CN_FULL \/ re = DATE_RE_STD_FULL) ->
             re_match re (strip s) = Some mt ->
             strict_match mt <> None ->
             exists y m d,
               date_prefix (strip s) y m d []
               /\ datetime (int_of_digits y) (int_of_digits m)
                           (int_of_digits d) <> None).
  { intros re mt Hre Hm Hsm.
    assert (Hend : to_end re = true) by (destruct Hre; subst; reflexivity).
    destruct (full_match_inv _ _ _ Hend Hm) as (rest & Hp & Hws).
    assert (F : date_form (prefix_of re) (strip s)
                          (grp_y mt) (grp_m mt) (grp_d mt) rest).
    { apply re_match_sound in Hp; [|reflexivity].
      now rewrite lstrip_strip in Hp. }
    assert (Hrest : rest = []).
    { destruct F as [Ht _ _ [Hd1 Hd2] _].
      destruct Hre; subst re; simpl in Ht.
      - apply (stripped_no_space_tail s
                 (grp_y mt ++ CH_YEAR :: grp_m mt ++ CH_MONTH :: grp_d mt)
                 rest CH_DAY); [|reflexivity|exact Hws].
        rewrite Ht. repeat (rewrite <- app_assoc; simpl). reflexivity.
      - destruct (grp_d mt) as [|c1 [|c2 [|c3 t]]] eqn:Ed; simpl in Hd1;
          try (destruct Hd1; discriminate).
        + inversion Hd2; subst.
          eapply (stripped_no_space_tail s
                    (grp_y mt ++ CH_DASH :: grp_m mt ++ [CH_DASH]) rest c1);
            [|now apply digit_not_space|exact Hws].
          rewrite Ht. repeat (rewrite <- app_assoc; simpl). reflexivity.
        + inversion Hd2 as [|? ? _ Hd3]; subst. inversion Hd3; subst.
          eapply (stripped_no_space_tail s
                    (grp_y mt ++ CH_DASH :: grp_m mt ++ [CH_DASH; c1]) rest c2);
            [|now apply digit_not_space|exact Hws].
          rewrite Ht. repeat (rewrite <- app_assoc; simpl). reflexivity. }
    subst rest.
    exists (grp_y mt), (grp_m mt), (grp_d mt). split.
    - destruct Hre; subst re; [left|right]; exact F.
    - unfold strict_match in Hsm.
      destruct (datetime _ _ _); [discriminate|contradiction]. }
  unfold normalize_date_prefix in H.
  destruct (re_match DATE_RE_CN_FULL (strip s)) as [mt|] eqn:E1.
  + exact (Hs _ mt (or_introl eq_refl) E1 H).
  + destruct (re_match DATE_RE_STD_FULL (strip s)) as [mt|] eqn:E2;
      [|contradiction].
    exact (Hs _ mt (or_intror eq_refl) E2 H).
Qed.

End StrictDate.

(** X11.  The strict function accepts a text exactly when the text,
    stripped, is one date and nothing else and its numbers are a date of
    the calendar: any text after the date, or an impossible day, makes it
    return [None]. *)
Theorem normalize_date_prefix_accepts (s : pystr) :
  normalize_date_prefix s <> None
  <-> exists y m d,
      date_prefix (strip s) y m d []
      /\ datetime (int_of_digits y) (int_of_digits m) (int_of_digits d) <> None.
Proof.
  split; [apply strict_accept_inv|].
  intros (y & m & d & Hp & Hdt).
  rewrite (normalize_date_prefix_complete _ _ _ _ Hp).
  destruct (datetime _ _ _); [discriminate|contradiction].
Qed.

(* ================================================================== *)
(** ** The search *)

Section Search.






Lemma like_clause_blank (f : field) (kw : pystr) :
  strip kw = [] -> like_clause f kw = [].
Proof. intros H. unfold like_clause. now rewrite H. Qed.


End Search.


(** X13.  Keywords that are empty or made of white space only ask for
    nothing: with six such keywords the search returns all the rows of
    the table. *)
Theorem blank_search_returns_all (db : store) (t d l a tp c : pystr) :
  strip t = [] -> strip d = [] -> strip l = [] -> strip a = [] ->
  strip tp = [] -> strip c = [] ->
  Permutation (rows db) (segmented_search_exact_six db t d l a tp c).
Proof.
  intros Ht Hd Hl Ha Htp Hc.
  unfold segmented_search_exact_six, build_clauses, date_clause.
  rewrite !like_clause_blank by assumption. rewrite Hd. simpl.
  unfold where_sql. simpl. rewrite filter_true. apply order_by_perm.
Qed.

Lemma blank_search_returns_all_witness :
  Permutation (rows two_meetings_store)
              (segmented_search_exact_six two_meetings_store
                 (U " ") (U "　") [] [] (U "  ") []).
Proof.
  exact (blank_search_returns_all two_meetings_store
           (U " ") (U "　") [] [] (U "  ") []
           eq_refl eq_refl eq_refl eq_refl eq_refl eq_refl).
Defined.



Section Wildcards.






End Wildcards.


(** X16.  A date keyword that is not one complete date of the calendar
    (text after the date, a part missing, an impossible day) is left out
    of the query: the search runs as without a date keyword. *)
Theorem unusable_date_keyword_ignored (db : store) (t d l a tp c : pystr) :
  (forall y m dd,
      date_prefix (strip d) y m dd [] ->
      datetime (int_of_digits y) (int_of_digits m) (int_of_digits dd) = None) ->
  segmented_search_exact_six db t d l a tp c
  = segmented_search_exact_six db t [] l a tp c.
Proof.
  intros H. apply rejected_date_keyword_dropped.
  destruct (normalize_date_prefix (strip d)) as [p|] eqn:E; [|reflexivity].
  exfalso.
  assert (Hne : normalize_date_prefix (strip d) <> None) by congruence.
  apply strict_accept_inv in Hne as (y & m & dd & Hp & Hdt).
  rewrite strip_idem in Hp. exact (Hdt (H y m dd Hp)).
Qed.

Lemma unusable_date_keyword_ignored_witness :
  (forall y m dd,
      date_prefix (strip (U "2024年3月5日 下午")) y m dd [] ->
      datetime (int_of_digits y) (int_of_digits m) (int_of_digits dd) = None)
  /\ segmented_search_exact_six two_meetings_store
       [] (U "2024年3月5日 下午") [] [] [] []
     = segmented_search_exact_six two_meetings_store [] [] [] [] [] [].
Proof.
  assert (H : forall y m dd,
             date_prefix (strip (U "2024年3月5日 下午")) y m dd [] ->
             datetime (int_of_digits y) (int_of_digits m) (int_of_digits dd)
             = None).
  { intros y m dd [F|F]; exfalso.
    - pose proof (re_match_complete _ _ _ _ _ _ sep_ok_cn eq_refl F) as E.
      vm_compute in E. discriminate E.
    - pose proof (re_match_complete _ _ _ _ _ _ sep_ok_std eq_refl F) as E.
      vm_compute in E. discriminate E. }
  split; [exact H|].
  exact (unusable_date_keyword_ignored two_meetings_store
           [] (U "2024年3月5日 下午") [] [] [] [] H).
Defined.

(** X17.  On a table whose dates all came out of [normalize_datetime],
    a date keyword that the strict function accepts selects no row: the
    prefix it is turned into has a dash where every stored date has a
    digit or the year sign. *)
Theorem accepted_date_keyword_finds_nothing (db : store) (t d l a tp c : pystr) :
  dates_normalized db ->
  normalize_date_prefix (strip d) <> None ->
  segmented_search_exact_six db t d l a tp c = [].
Proof. apply date_filter_finds_nothing. Qed.

Lemma accepted_date_keyword_finds_nothing_witness :
  dates_normalized two_meetings_store
  /\ normalize_date_prefix (strip (U "2024-10-01")) <> None
  /\ segmented_search_exact_six two_meetings_store
       (U "例会") (U "2024-10-01") [] [] [] [] = [].
Proof.
  assert (H1 : dates_normalized two_meetings_store).
  { apply Forall_forall. intros r Hr. exists (r_date r).
    destruct Hr as [<-|[<-|[]]]; reflexivity. }
  assert (H2 : normalize_date_prefix (strip (U "2024-10-01")) <> None)
    by discriminate.
  split; [exact H1|]. split; [exact H2|].
  exact (accepted_date_keyword_finds_nothing two_meetings_store
           (U "例会") (U "2024-10-01") [] [] [] [] H1 H2).
Defined.

(* ================================================================== *)
(** ** More on the record extractor *)

Section ExtractorMore.

Lemma label_prefixes_differ (p q : part) (ln : pystr) :
  startswith ln (part_label p) = true -> p <> q ->
  startswith ln (part_label q) = false.
Proof.
  intros H Hne. apply startswith_inv in H as [r ->].
  destruct p, q; try contradiction; reflexivity.
Qed.

Lemma label_not_marker (p : part) (ln : pystr) :
  startswith ln (part_label p) = true -> startswith ln LBL_CONTENT = false.
Proof.
  intros H. apply startswith_inv in H as [r ->]. destruct p; reflexivity.
Qed.

(** A line with the label of [p] sets the value of [p]. *)
Lemma scan_line_sets (p : part) (st : scan_state) (ln : pystr) :
  startswith ln (part_label p) = true ->
  part_value p (scan_line st ln) = safe_extract ln.
Proof.
  intros H.
  assert (D1 : p <> PDate -> startswith ln LBL_TIME = false)
    by (intros Hq; exact (label_prefixes_differ p PDate ln H Hq)).
  assert (D2 : p <> PPlace -> startswith ln LBL_PLACE = false)
    by (intros Hq; exact (label_prefixes_differ p PPlace ln H Hq)).
  assert (D3 : p <> PPeople -> startswith ln LBL_PEOPLE = false)
    by (intros Hq; exact (label_prefixes_differ p PPeople ln H Hq)).
  unfold scan_line. destruct p; cbn [part_label part_value] in *.
  - now rewrite H.
  - rewrite D1 by discriminate. now rewrite H.
  - rewrite D1, D2 by discriminate. now rewrite H.
  - rewrite D1, D2, D3 by discriminate. now rewrite H.
Qed.

(** A line without the label of [p] leaves the value of [p]. *)
Lemma scan_line_keeps (p : part) (st : scan_state) (ln : pystr) :
  startswith ln (part_label p) = false ->
  part_value p (scan_line st ln) = part_value p st.
Proof.
  intros H. unfold scan_line.
  destruct (startswith ln LBL_TIME) eqn:E1;
    [destruct p; cbn [part_label part_value] in *;
     first [congruence|reflexivity]|].
  destruct (startswith ln LBL_PLACE) eqn:E2;
    [destruct p; cbn [part_label part_value] in *;
     first [congruence|reflexivity]|].
  destruct (startswith ln LBL_PEOPLE) eqn:E3;
    [destruct p; cbn [part_label part_value] in *;
     first [congruence|reflexivity]|].
  destruct (startswith ln LBL_TOPIC) eqn:E4;
    [destruct p; cbn [part_label part_value] in *;
     first [congruence|reflexivity]|].
  destruct (startswith ln LBL_CONTENT); [now destruct p|].
  destruct (content_started st); now destruct p.
Qed.

Lemma scan_keeps (p : part) (lines : list pystr) (st : scan_state) :
  Forall (fun ln => startswith ln (part_label p) = false) lines ->
  part_value p (fold_left scan_line lines st) = part_value p st.
Proof.
  intros H. revert st. induction H as [|ln lines Hln _ IH]; intros st; simpl.
  - reflexivity.
  - now rewrite IH, scan_line_keeps.
Qed.

(** Before the marker a line without a label changes nothing. *)
Lemma scan_line_unlabelled (st : scan_state) (ln : pystr) :
  is_label ln = false -> content_started st = false -> scan_line st ln = st.
Proof.
  unfold is_label, scan_line. intros H Hs.
  repeat (apply orb_false_iff in H as [H ?]).
  now rewrite H, H3, H2, H1, H0, Hs.
Qed.

Lemma extract_outcome (lines : list pystr) :
  (exists rec,
      extract_record lines = (Some rec, None, None)
      /\ lines <> []
      /\ title rec = hd [] lines
      /\ raw_text rec = join [CH_NL] lines
      /\ normalize_datetime (date_str (scan (tl lines))) = Some (date rec)
      /\ location rec = v_location (scan (tl lines)) /\ location rec <> []
      /\ attendees rec = v_attendees (scan (tl lines)) /\ attendees rec <> []
      /\ topic rec = v_topic (scan (tl lines))
      /\ content rec = strip (join [CH_NL] (content_lines (scan (tl lines)))))
  \/ (exists e,
         extract_record lines = (None, Some e, Some (join [CH_NL] lines))
         /\ e <> []
         /\ ((e = MSG_EMPTY /\ lines = []) \/ e = MSG_MISSING \/ e = MSG_BAD_DATE)).
Proof.
  destruct lines as [|first rest].
  - right. exists MSG_EMPTY. split; [reflexivity|].
    split; [discriminate|now left].
  - unfold extract_record. cbn [tl hd].
    destruct (truthy (date_str (scan rest))) eqn:E1; simpl negb;
      [|right; exists MSG_MISSING; split; [reflexivity|];
        split; [discriminate|now right; left]].
    destruct (truthy (v_location (scan rest))) eqn:E2; simpl negb;
      [|right; exists MSG_MISSING; split; [reflexivity|];
        split; [discriminate|now right; left]].
    destruct (truthy (v_attendees (scan rest))) eqn:E3; simpl negb;
      [|right; exists MSG_MISSING; split; [reflexivity|];
        split; [discriminate|now right; left]].
    simpl orb. cbv iota.
    destruct (normalize_datetime (date_str (scan rest))) as [dn|] eqn:E4;
      [|right; exists MSG_BAD_DATE; split; [reflexivity|];
        split; [discriminate|now right; right]].
    destruct (truthy dn) eqn:E5;
      [|right; exists MSG_BAD_DATE; split; [reflexivity|];
        split; [discriminate|now right; right]].
    left. eexists. split; [reflexivity|]. simpl.
    apply truthy_true in E2. apply truthy_true in E3.
    repeat split; try assumption; discriminate.
Qed.

End ExtractorMore.

(** X18.  Every line-group gives exactly one of two outcomes.  Either a
    record: then the group has a first line, which is the title whatever
    it looks like, the raw text is the lines joined by newlines, the date
    is what [normalize_datetime] returns for the scanned date value, and
    place and attendees are not empty.  Or an error, one of the three of
    the extractor, together with the lines joined by newlines as raw
    text. *)
Theorem extract_record_outcome (lines : list pystr) :
  (exists rec,
      extract_record lines = (Some rec, None, None)
      /\ lines <> []
      /\ title rec = hd [] lines
      /\ raw_text rec = join [CH_NL] lines
      /\ normalize_datetime (date_str (scan (tl lines))) = Some (date rec)
      /\ location rec = v_location (scan (tl lines)) /\ location rec <> []
      /\ attendees rec = v_attendees (scan (tl lines)) /\ attendees rec <> []
      /\ topic rec = v_topic (scan (tl lines))
      /\ content rec = strip (join [CH_NL] (content_lines (scan (tl lines)))))
  \/ (exists e,
         extract_record lines = (None, Some e, Some (join [CH_NL] lines))
         /\ e <> []
         /\ ((e = MSG_EMPTY /\ lines = []) \/ e = MSG_MISSING \/ e = MSG_BAD_DATE)).
Proof. apply extract_outcome. Qed.

(** X19.  Of several lines with the same label the last one counts: the
    value of date, place, attendees or topic after the scan is what the
    last line that starts with its label carries after the first
    full-width colon, stripped (nothing when that line has no such
    colon), wherever the line stands. *)
Theorem last_label_line_wins (p : part) (pre : list pystr) (ln : pystr)
        (post : list pystr) :
  startswith ln (part_label p) = true ->
  Forall (fun l => startswith l (part_label p) = false) post ->
  part_value p (scan (pre ++ ln :: post)) = safe_extract ln.
Proof.
  intros Hln Hpost. unfold scan. rewrite fold_left_app. simpl.
  rewrite (scan_keeps p post _ Hpost). now apply scan_line_sets.
Qed.

Lemma last_label_line_wins_witness :
  startswith (U "会议地点：二楼") (part_label PPlace) = true
  /\ v_location (scan (map U ["会议地点：三楼"; "会议内容："; "会议地点：二楼";
                              "会议地点"; "正文"]%string)) = [].
Proof.
  split; [reflexivity|].
  apply (last_label_line_wins PPlace
           (map U ["会议地点：三楼"; "会议内容："; "会议地点：二楼"]%string)
           (U "会议地点") [U "正文"]).
  - reflexivity.
  - repeat constructor.
Defined.

(** X20.  Before the content marker a line that starts with none of the
    five labels is dropped: the scan of the lines after the title gives
    the same values with and without it. *)
Theorem unlabelled_line_before_marker_dropped (pre : list pystr) (ln : pystr)
        (post : list pystr) :
  Forall (fun l => startswith l LBL_CONTENT = false) pre ->
  is_label ln = false ->
  scan (pre ++ ln :: post) = scan (pre ++ post).
Proof.
  intros Hpre Hln. unfold scan. rewrite !fold_left_app. simpl. f_equal.
  apply scan_line_unlabelled; [exact Hln|].
  now apply (scan_before_marker pre scan_init eq_refl eq_refl).
Qed.

Lemma unlabelled_line_before_marker_dropped_witness :
  Forall (fun l => startswith l LBL_CONTENT = false) [U "会议时间：2024年3月5日"]
  /\ is_label (U "主持人：王五") = false
  /\ scan (map U ["会议时间：2024年3月5日"; "主持人：王五"; "会议内容："; "正文"]%string)
     = scan (map U ["会议时间：2024年3月5日"; "会议内容："; "正文"]%string).
Proof.
  assert (H1 : Forall (fun l => startswith l LBL_CONTENT = false)
                      [U "会议时间：2024年3月5日"]) by (repeat constructor).
  split; [exact H1|]. split; [reflexivity|].
  exact (unlabelled_line_before_marker_dropped
           [U "会议时间：2024年3月5日"] (U "主持人：王五")
           (map U ["会议内容："; "正文"]%string) H1 eq_refl).
Defined.
